(** * MaxWaveX backend: identity and progress-consistency core

    A shallow embedding of the request handlers of
    [backend/routes/auth.js], [backend/routes/progress.js] and
    [backend/routes/games.js] over the store helpers of
    [backend/config/database.js], followed by the properties of the
    specification that concern them.

    Conventions of the embedding.
    - A JavaScript value that a handler reads from a request or from a
      token is [undefined], [null] or a value of the expected type: the
      type [js A].  Numbers are integers ([Z]); [NaN] is [None].
    - A handler is a program of type [prog R]: a tree of store calls, one
      node per [await].  [run] executes a program alone, [interleave]
      executes several programs against one store, switching between them
      at the [await]s as the event loop does.
    - The store is the MySQL database seen through [query], [insert],
      [update] and [findById]: tables are lists of rows, primary keys are
      handed out by a counter per table.  The schema is not part of the
      sources; the columns of a table are the ones that the statements of
      the sources name for it, and the server refuses a statement that
      names another one, so that [query] throws. *)

From Stdlib Require Import ZArith List String Ascii Bool Lia.
From Stdlib Require Import Sorted Permutation.
Import ListNotations.
Local Open Scope string_scope.
Local Open Scope Z_scope.

(* ================================================================== *)
(** ** JavaScript values *)

Module JS.

Inductive js (A : Type) : Type :=
| undefined : js A
| null : js A
| just : A -> js A.
Arguments undefined {A}.
Arguments null {A}.
Arguments just {A} _.

(** [v === undefined] *)
Definition is_undefined {A} (v : js A) : bool :=
  match v with undefined => true | _ => false end.

(** Truthiness of a number: [0] (and [NaN]) are falsy. *)
Definition truthy_num (v : js Z) : bool :=
  match v with just z => negb (z =? 0) | _ => false end.

(** Truthiness of a string: the empty string is falsy. *)
Definition truthy_str (v : js string) : bool :=
  match v with just s => negb (s =? "")%string | _ => false end.

(** [ToNumber]: [undefined] is [NaN], [null] is [0]. *)
Definition ToNumber (v : js Z) : option Z :=
  match v with undefined => None | null => Some 0 | just z => Some z end.

(** [v < n], [v > n], [v >= n] against a numeric literal; a comparison
    with [NaN] is false. *)
Definition lt (v : js Z) (n : Z) : bool :=
  match ToNumber v with Some z => z <? n | None => false end.
Definition gt (v : js Z) (n : Z) : bool :=
  match ToNumber v with Some z => z >? n | None => false end.
Definition ge (v : js Z) (n : Z) : bool :=
  match ToNumber v with Some z => z >=? n | None => false end.

(** [v || n] for a numeric literal [n]: always a number. *)
Definition or_num (v : js Z) (n : Z) : Z :=
  match v with just z => if z =? 0 then n else z | _ => n end.

(** [a || b] between two values read from a token. *)
Definition or_else (a b : js Z) : js Z :=
  if truthy_num a then a else b.

Definition or_str (a : js string) (d : string) : string :=
  match a with just s => if (s =? "")%string then d else s | _ => d end.

End JS.
Import JS.

(* ================================================================== *)
(** ** The store *)

(** A row of [progreso_usuarios]. *)
Record progreso : Type := mkProgreso {
  id_progreso : Z;
  id_usuario : option Z;
  id_modulo : Z;
  porcentaje_completado : Z;
  tiempo_empleado : Z;
  ultimo_acceso : option Z;
  esta_completado : bool;
  puntuacion : Z
}.

(** A row of [resultados_juegos]. *)
Record resultado : Type := mkResultado {
  id_resultado : Z;
  rj_id_usuario : option Z;
  rj_id_sesion_invitado : option Z;
  tipo_juego : string;
  rj_puntuacion : option Z;
  nivel_alcanzado : option Z;
  tiempo_jugado : option Z;
  metadatos : option string;
  fecha_juego : Z
}.

(** A row of [modulos], as far as the progress queries read it. *)
Record modulo : Type := mkModulo {
  m_id_modulo : Z;
  indice_orden : Z
}.

(** Modelled from the spec: the tables of the database, whose declarations
    (the SQL schema) are not among the sources.  A table is the list of
    its rows, with the columns the handlers name and the fields of the
    specification's data model.  No constraint is put on a table beyond a
    primary key handed out in sequence: in particular none on the pair
    (id_usuario, id_modulo), which the specification describes as open to
    double insertion. *)
Record store : Type := mkStore {
  modulos : list modulo;
  usuarios : list (Z * string);             (* id_usuario, nombre *)
  sesiones_invitados : list (Z * string);   (* id_sesion_invitado, nombre_usuario *)
  progreso_usuarios : list progreso;
  next_id_progreso : Z;
  resultados_juegos : list resultado;
  next_id_resultado : Z
}.

Definition with_progreso (s : store) (rows : list progreso) (next : Z) : store :=
  mkStore (modulos s) (usuarios s) (sesiones_invitados s)
          rows next (resultados_juegos s) (next_id_resultado s).

Definition with_resultados (s : store) (rows : list resultado) (next : Z) : store :=
  mkStore (modulos s) (usuarios s) (sesiones_invitados s)
          (progreso_usuarios s) (next_id_progreso s) rows next.

(** The object literal [progressData] / [newProgress]: a key is present
    ([Some]) or absent ([None]); [id_usuario] may be present and hold
    [undefined]. *)
Record progressData : Type := mkData {
  d_id_usuario : option (js Z);
  d_id_modulo : option Z;
  d_porcentaje_completado : option Z;
  d_tiempo_empleado : option Z;
  d_esta_completado : option bool;
  d_puntuacion : option Z;
  d_ultimo_acceso : option Z
}.

(** [progressData.id_usuario = userId; progressData.id_modulo = moduleId] *)
Definition set_owner (d : progressData) (userId : js Z) (moduleId : Z) : progressData :=
  mkData (Some userId) (Some moduleId) (d_porcentaje_completado d)
         (d_tiempo_empleado d) (d_esta_completado d) (d_puntuacion d)
         (d_ultimo_acceso d).

(** [progressData.tiempo_empleado = 0] *)
Definition set_tiempo (d : progressData) (t : Z) : progressData :=
  mkData (d_id_usuario d) (d_id_modulo d) (d_porcentaje_completado d)
         (Some t) (d_esta_completado d) (d_puntuacion d) (d_ultimo_acceso d).

(** The object literal [gameResult]. *)
Record gameResult : Type := mkGame {
  g_id_usuario : js Z;
  g_id_sesion_invitado : js Z;
  g_tipo_juego : string;
  g_puntuacion : js Z;
  g_nivel_alcanzado : js Z;
  g_tiempo_jugado : js Z;
  g_metadatos : option string;
  g_fecha_juego : Z
}.

(** What a store call gives back: rows, or a thrown error that the
    handler's [catch] turns into a 500. *)
Inductive outcome (A : Type) : Type :=
| Ok : A -> outcome A
| Throw : outcome A.
Arguments Ok {A} _.
Arguments Throw {A}.

(** A bound parameter of [pool.execute]: the driver refuses [undefined]
    with a [TypeError], and sends [null] as SQL NULL. *)
Definition bind (v : js Z) : outcome (option Z) :=
  match v with
  | undefined => Throw
  | null => Ok None
  | just z => Ok (Some z)
  end.

Definition opt_default {A} (o : option A) (d : A) : A :=
  match o with Some a => a | None => d end.

Definition option_Z_eqb (a b : option Z) : bool :=
  match a, b with
  | Some x, Some y => x =? y
  | _, _ => false               (* [NULL = x] is never true *)
  end.

Module Store.

(** [WHERE id_usuario = ? AND id_modulo = ?] *)
Definition of_pair (u : option Z) (m : Z) (r : progreso) : bool :=
  option_Z_eqb (id_usuario r) u && (id_modulo r =? m).


(** The columns of [modulos]: the ones that the statements of the sources
    name for the table (the select lists and the [WHERE id_modulo = ?] of
    modules.js, the joins of progress.js, and the key [id_modulo] that
    [update] infers for it). *)
Definition modulos_columns : list string :=
  ["id_modulo"; "titulo"; "descripcion"; "contenido"; "tipo_contenido";
   "nivel_dificultad"; "indice_orden"; "esta_activo"; "fecha_creacion"].

(** [findById('modulos', id)] sends [SELECT * FROM modulos WHERE id = ?
    LIMIT 1].  The table has no column [id]: the server refuses the
    statement, and [query] logs the error and throws it again.  (With
    such a column the call would give the row of that key, or [null].) *)
Definition findById_modulos (s : store) (id : Z) : outcome (option modulo) :=
  if existsb (String.eqb "id") modulos_columns
  then Ok (find (fun x => m_id_modulo x =? id) (modulos s))
  else Throw.

(** [SELECT id_progreso FROM progreso_usuarios WHERE id_usuario = ? AND
    id_modulo = ?] *)
Definition select_pair (s : store) (u : option Z) (m : Z) : list progreso :=
  filter (of_pair u m) (progreso_usuarios s).

(** [INSERT INTO progreso_usuarios (keys) VALUES (values)]: the new row
    takes the next key; a column that is not named keeps the column
    default. *)
Definition row_of (id : Z) (u : option Z) (d : progressData) : progreso :=
  mkProgreso id u
    (opt_default (d_id_modulo d) 0)
    (opt_default (d_porcentaje_completado d) 0)
    (opt_default (d_tiempo_empleado d) 0)
    (d_ultimo_acceso d)
    (opt_default (d_esta_completado d) false)
    (opt_default (d_puntuacion d) 0).

Definition insert_progreso (s : store) (d : progressData) : outcome Z * store :=
  match bind (opt_default (d_id_usuario d) null) with
  | Throw => (Throw, s)
  | Ok u =>
      let id := next_id_progreso s in
      (Ok id, with_progreso s (progreso_usuarios s ++ [row_of id u d]) (id + 1))
  end.

(** [UPDATE progreso_usuarios SET key = ?, ... WHERE id_progreso = ?]:
    only the keys of [data] are assigned. *)
Definition assign (d : progressData) (r : progreso) : progreso :=
  mkProgreso (id_progreso r)
    (match d_id_usuario d with
     | Some (just u) => Some u | Some _ => None | None => id_usuario r end)
    (opt_default (d_id_modulo d) (id_modulo r))
    (opt_default (d_porcentaje_completado d) (porcentaje_completado r))
    (opt_default (d_tiempo_empleado d) (tiempo_empleado r))
    (match d_ultimo_acceso d with Some t => Some t | None => ultimo_acceso r end)
    (opt_default (d_esta_completado d) (esta_completado r))
    (opt_default (d_puntuacion d) (puntuacion r)).

Definition update_progreso (s : store) (id : Z) (d : progressData) : outcome unit * store :=
  match d_id_usuario d with
  | Some undefined => (Throw, s)
  | _ =>
      (Ok tt,
       with_progreso s
         (map (fun r => if id_progreso r =? id then assign d r else r)
              (progreso_usuarios s))
         (next_id_progreso s))
  end.

(** [INSERT INTO resultados_juegos (keys) VALUES (values)]: every value
    of the object is bound. *)
Definition insert_resultado (s : store) (g : gameResult) : outcome Z * store :=
  match bind (g_id_usuario g), bind (g_id_sesion_invitado g),
        bind (g_puntuacion g), bind (g_nivel_alcanzado g),
        bind (g_tiempo_jugado g) with
  | Ok u, Ok i, Ok p, Ok n, Ok t =>
      let id := next_id_resultado s in
      (Ok id,
       with_resultados s
         (resultados_juegos s ++
            [mkResultado id u i (g_tipo_juego g) p n t (g_metadatos g)
               (g_fecha_juego g)])
         (id + 1))
  | _, _, _, _, _ => (Throw, s)
  end.

End Store.


(* ================================================================== *)
(** ** Joins, ordering and the remaining queries *)

(** [ORDER BY]: a stable insertion sort along a boolean order. *)
Fixpoint insert_by {A} (leb : A -> A -> bool) (x : A) (l : list A) : list A :=
  match l with
  | [] => [x]
  | y :: l' => if leb x y then x :: l else y :: insert_by leb x l'
  end.

Fixpoint sort_by {A} (leb : A -> A -> bool) (l : list A) : list A :=
  match l with
  | [] => []
  | x :: l' => insert_by leb x (sort_by leb l')
  end.

(** [FROM progreso_usuarios pu JOIN modulos m ON pu.id_modulo = m.id_modulo] *)
Definition join_modulos (s : store) (rows : list progreso) : list (progreso * modulo) :=
  flat_map
    (fun r => map (pair r)
                  (filter (fun m => m_id_modulo m =? id_modulo r) (modulos s)))
    rows.

(** One line of the leaderboard query, before the rank is added. *)
Record entry : Type := mkEntry {
  e_score : option Z;
  e_level_reached : option Z;
  e_time_played : option Z;
  e_played_at : Z;
  e_player_name : string;
  e_player_type : string
}.

(** The order of a column under [ORDER BY]: NULL sorts below every
    number. *)
Definition col_ltb (a b : option Z) : bool :=
  match a, b with
  | None, Some _ => true
  | Some x, Some y => x <? y
  | _, None => false
  end.

Definition col_eqb (a b : option Z) : bool :=
  match a, b with
  | None, None => true
  | Some x, Some y => x =? y
  | _, _ => false
  end.

Definition col_leb (a b : option Z) : bool := col_ltb a b || col_eqb a b.

(** [ORDER BY rj.puntuacion DESC, rj.nivel_alcanzado DESC,
    rj.tiempo_jugado ASC]: [a] may come before [b]. *)
Definition rank_leb (a b : resultado) : bool :=
  col_ltb (rj_puntuacion b) (rj_puntuacion a)
  || (col_eqb (rj_puntuacion a) (rj_puntuacion b)
      && (col_ltb (nivel_alcanzado b) (nivel_alcanzado a)
          || (col_eqb (nivel_alcanzado a) (nivel_alcanzado b)
              && col_leb (tiempo_jugado a) (tiempo_jugado b)))).

Definition lookup_name (t : list (Z * string)) (id : option Z) : option string :=
  match id with
  | None => None
  | Some i => option_map snd (find (fun r => fst r =? i) t)
  end.

(** The select list of the leaderboard query: [COALESCE(u.nombre,
    si.nombre_usuario, 'Anónimo')] and the [CASE] on the joined keys. *)
Definition entry_of (s : store) (r : resultado) : entry :=
  let u := lookup_name (usuarios s) (rj_id_usuario r) in
  let si := lookup_name (sesiones_invitados s) (rj_id_sesion_invitado r) in
  mkEntry (rj_puntuacion r) (nivel_alcanzado r) (tiempo_jugado r) (fecha_juego r)
    (match u, si with
     | Some n, _ => n
     | None, Some n => n
     | None, None => "Anónimo"
     end)
    (match u, si with
     | Some _, _ => "registered"
     | None, Some _ => "guest"
     | None, None => "anonymous"
     end).

Module Queries.

(** [WHERE rj.tipo_juego = ? ORDER BY ...], the rows before [LIMIT]. *)
Definition ranked_rows (s : store) (gameType : string) : list resultado :=
  sort_by rank_leb
    (filter (fun r => (tipo_juego r =? gameType)%string) (resultados_juegos s)).

(** [... LIMIT ?]: the server refuses a negative row count. *)
Definition leaderboard (s : store) (gameType : string) (limit : Z) : outcome (list entry) :=
  if limit <? 0 then Throw
  else Ok (map (entry_of s) (firstn (Z.to_nat limit) (ranked_rows s gameType))).

Definition by_indice_orden (a b : progreso * modulo) : bool :=
  indice_orden (snd a) <=? indice_orden (snd b).

(** [... WHERE pu.id_usuario = ? ORDER BY m.indice_orden ASC] *)
Definition user_rows (s : store) (u : option Z) : list (progreso * modulo) :=
  sort_by by_indice_orden
    (join_modulos s
       (filter (fun r => option_Z_eqb (id_usuario r) u) (progreso_usuarios s))).

End Queries.

(* ================================================================== *)
(** ** Handlers as programs over store calls *)

(** The calls a handler awaits. *)
Inductive call : Type -> Type :=
| findById_modulos (id : Z) : call (option modulo)
| query_pair (userId : js Z) (moduleId : Z) : call (list progreso)
| query_pair_join (userId : js Z) (moduleId : Z) : call (list (progreso * modulo))
| query_id_join (id : Z) : call (list (progreso * modulo))
| query_user_join (userId : js Z) : call (list (progreso * modulo))
| insert_progreso (data : progressData) : call Z
| update_progreso (id : Z) (data : progressData) : call unit
| insert_resultado (data : gameResult) : call Z
| query_leaderboard (gameType : string) (limit : Z) : call (list entry).

(** A read with one bound user id. *)
Definition reading {A} (s : store) (userId : js Z) (rows : option Z -> A) : outcome A * store :=
  match bind userId with
  | Throw => (Throw, s)
  | Ok u => (Ok (rows u), s)
  end.

Definition exec {A} (c : call A) (s : store) : outcome A * store :=
  match c in call T return outcome T * store with
  | findById_modulos id => (Store.findById_modulos s id, s)
  | query_pair u m => reading s u (fun u => Store.select_pair s u m)
  | query_pair_join u m =>
      reading s u (fun u => join_modulos s (Store.select_pair s u m))
  | query_id_join id =>
      (Ok (join_modulos s (filter (fun r => id_progreso r =? id) (progreso_usuarios s))), s)
  | query_user_join u => reading s u (Queries.user_rows s)
  | insert_progreso d => Store.insert_progreso s d
  | update_progreso id d => Store.update_progreso s id d
  | insert_resultado g => Store.insert_resultado s g
  | query_leaderboard g n => (Queries.leaderboard s g n, s)
  end.

Inductive prog (R : Type) : Type :=
| Ret : R -> prog R
| Await : forall A : Type, call A -> (A -> prog R) -> prog R.
Arguments Ret {R} _.
Arguments Await {R A} _ _.

Notation "x <- c ;; k" := (Await c (fun x => k))
  (at level 61, c at next level, right associativity).

(** A handler run alone, from its first line to its response; a throw
    ends it in the [catch] block, whose response is [caught]. *)
Fixpoint run {R} (caught : R) (p : prog R) (s : store) : R * store :=
  match p with
  | Ret r => (r, s)
  | Await c k =>
      match exec c s with
      | (Ok a, s') => run caught (k a) s'
      | (Throw, s') => (caught, s')
      end
  end.

(** One turn of the event loop for a pending handler: the awaited call is
    executed and the handler resumes up to its next [await]. *)
Definition resume {R} (caught : R) (p : prog R) (s : store) : prog R * store :=
  match p with
  | Ret r => (Ret r, s)
  | Await c k =>
      match exec c s with
      | (Ok a, s') => (k a, s')
      | (Throw, s') => (Ret caught, s')
      end
  end.

Fixpoint set_nth {A} (n : nat) (x : A) (l : list A) : list A :=
  match l, n with
  | [], _ => []
  | _ :: l', O => x :: l'
  | y :: l', S n' => y :: set_nth n' x l'
  end.

(** Handlers in flight against one store; [schedule] names, turn by turn,
    the handler whose awaited call completes next. *)
Fixpoint interleave {R} (caught : R) (schedule : list nat)
         (pending : list (prog R)) (s : store) : list (prog R) * store :=
  match schedule with
  | [] => (pending, s)
  | i :: rest =>
      match nth_error pending i with
      | None => interleave caught rest pending s
      | Some p =>
          let (p', s') := resume caught p s in
          interleave caught rest (set_nth i p' pending) s'
      end
  end.

(* ================================================================== *)
(** ** Responses *)

Inductive json : Type :=
| Rows (rows : list (progreso * modulo))
| Row (row : option (progreso * modulo))
| Error (error : string)
| NotPersisted
| Progress (message : string) (progress : option (progreso * modulo))
| Saved (resultId : Z) (score levelReached : js Z)
| Board (gameType : string) (totalEntries : nat) (leaderboard : list (Z * entry)).

Record response : Type := mkRes { status : Z; body : json }.

(** The [catch] block of every handler. *)
Definition internal_error : response :=
  mkRes 500 (Error "Error interno del servidor").

(* ================================================================== *)
(** ** auth.js: tokens and the authenticated user *)

Module Auth.

(** The payload of a token. *)
Record claims : Type := mkClaims {
  c_userId : js Z;
  c_guestId : js Z;
  c_sessionId : js string;
  c_email : js string;
  c_username : js string;
  c_userType : js string
}.

(** [req.user] *)
Record user : Type := mkUser {
  userId : js Z;
  guestId : js Z;
  sessionId : js string;
  email : js string;
  username : js string;
  userType : string
}.

(** The errors [jwt.verify] hands to its callback. *)
Inductive jwt_error : Type :=
| TokenExpiredError
| JsonWebTokenError
| NotBeforeError.

Inductive verified : Type :=
| Failed (err : jwt_error)
| Decoded (decoded : claims).

(** What the middleware does: it answers, or it calls [next()] with
    [req.user] set. *)
Inductive passage : Type :=
| Answered (res : response)
| Next (u : user).

(** [s.split(' ')] *)
Fixpoint split (sep : ascii) (s : string) : list string :=
  match s with
  | EmptyString => [EmptyString]
  | String c s' =>
      if Ascii.eqb c sep then EmptyString :: split sep s'
      else match split sep s' with
           | [] => [String c EmptyString]
           | w :: ws => String c w :: ws
           end
  end.

(** [authHeader && authHeader.split(' ')[1]] *)
Definition token_of (authHeader : js string) : js string :=
  if truthy_str authHeader then
    match authHeader with
    | just h =>
        match nth_error (split " "%char h) 1 with
        | Some t => just t
        | None => undefined
        end
    | _ => authHeader
    end
  else authHeader.

(** The normalised user built from the decoded payload. *)
Definition normalise (decoded : claims) : user :=
  mkUser (or_else (c_userId decoded) (c_guestId decoded))
         (c_guestId decoded)
         (c_sessionId decoded)
         (c_email decoded)
         (c_username decoded)
         (or_str (c_userType decoded) "student").

Section Middleware.

(** [jwt.verify(token, secret, callback)] of the jsonwebtoken package,
    together with the clock it reads, and [process.env.JWT_SECRET]. *)
Variable jwt_verify : string -> string -> verified.
Variable JWT_SECRET : js string.

Definition authenticateToken (authHeader : js string) : passage :=
  let token := token_of authHeader in
  if negb (truthy_str token) then
    Answered (mkRes 401 (Error "Token de acceso requerido"))
  else
    match token with
    | just t =>
        match jwt_verify t (or_str JWT_SECRET "maxwavex_secret_key") with
        | Failed err => Answered (mkRes 403 (Error "Token inválido"))
        | Decoded decoded => Next (normalise decoded)
        end
    | _ => Answered (mkRes 401 (Error "Token de acceso requerido"))
    end.

End Middleware.

(** The payloads that [jwt.sign] is given: at registration and login,
    and for a guest session. *)
Definition registered_claims (userId : Z) (email tipo_usuario : string) : claims :=
  mkClaims (just userId) undefined undefined (just email) undefined
           (just tipo_usuario).

Definition guest_claims (guestId : Z) (sessionId username : string) : claims :=
  mkClaims undefined (just guestId) (just sessionId) undefined (just username)
           (just "guest").

Definition is_guest (u : user) : bool := (userType u =? "guest")%string.

End Auth.

(* ================================================================== *)
(** ** progress.js *)

Module ProgressRoutes.
Import Auth.

Record put_body : Type := mkBody {
  completion_percentage : js Z;
  time_spent : js Z;
  score : js Z
}.

(** A request past [authenticateToken]; [now] is the reading of
    [new Date()] while it is handled. *)
Record request : Type := mkReq {
  req_user : user;
  moduleId : Z;
  req_body : put_body;
  now : Z
}.

Definition not_persisted : response := mkRes 200 NotPersisted.
Definition not_found : response := mkRes 404 (Error "Módulo no encontrado").
Definition bad_request (e : string) : response := mkRes 400 (Error e).

(** [router.get('/')] *)
Definition listProgress (req : request) : prog response :=
  if is_guest (req_user req) then Ret (mkRes 200 (Rows []))
  else
    progress <- query_user_join (userId (req_user req)) ;;
    Ret (mkRes 200 (Rows progress)).

(** The middleware [requireRegisteredUser], followed by [next]. *)
Definition requireRegisteredUser (req : request) (next : prog response) : prog response :=
  if is_guest (req_user req) then Ret (mkRes 200 (Rows []))
  else next.

(** [router.get('/:moduleId')] *)
Definition getProgress (req : request) : prog response :=
  requireRegisteredUser req
    (let userId := userId (req_user req) in
     let moduleId := moduleId req in
     module <- findById_modulos moduleId ;;
     match module with
     | None => Ret not_found
     | Some _ =>
         progress <- query_pair_join userId moduleId ;;
         match progress with
         | [] =>
             let newProgress :=
               mkData (Some userId) (Some moduleId) (Some 0) (Some 0)
                      (Some false) (Some 0) None in
             insertId <- insert_progreso newProgress ;;
             createdProgress <- query_id_join insertId ;;
             Ret (mkRes 200 (Row (hd_error createdProgress)))
         | p :: _ => Ret (mkRes 200 (Row (Some p)))
         end
     end).

(** [router.put('/:moduleId')] *)
Definition upsertProgress (req : request) : prog response :=
  if is_guest (req_user req) then Ret not_persisted
  else
    let userId := userId (req_user req) in
    let moduleId := moduleId req in
    let completion_percentage := completion_percentage (req_body req) in
    let time_spent := time_spent (req_body req) in
    let score := score (req_body req) in
    if negb (is_undefined completion_percentage)
       && (lt completion_percentage 0 || gt completion_percentage 100)
    then Ret (bad_request "El porcentaje de completado debe estar entre 0 y 100")
    else if negb (is_undefined time_spent) && lt time_spent 0
    then Ret (bad_request "El tiempo gastado no puede ser negativo")
    else if negb (is_undefined score) && lt score 0
    then Ret (bad_request "La puntuación no puede ser negativa")
    else
      module <- findById_modulos moduleId ;;
      match module with
      | None => Ret not_found
      | Some _ =>
          existingProgress <- query_pair userId moduleId ;;
          let progressData :=
            mkData None None
                   (Some (or_num completion_percentage 0))
                   (Some (or_num time_spent 0))
                   (Some (ge completion_percentage 100))
                   (Some (or_num score 0))
                   (Some (now req)) in
          let respond :=
            updatedProgress <- query_pair_join userId moduleId ;;
            Ret (mkRes 200 (Progress "Progreso actualizado correctamente"
                                     (hd_error updatedProgress))) in
          match existingProgress with
          | [] =>
              _ <- insert_progreso (set_owner progressData userId moduleId) ;;
              respond
          | existing :: _ =>
              _ <- update_progreso (id_progreso existing) progressData ;;
              respond
          end
      end.

(** [router.post('/:moduleId/complete')] *)
Definition completeProgress (req : request) : prog response :=
  if is_guest (req_user req) then Ret not_persisted
  else
    let userId := userId (req_user req) in
    let moduleId := moduleId req in
    let score := score (req_body req) in
    module <- findById_modulos moduleId ;;
    match module with
    | None => Ret not_found
    | Some _ =>
        existingProgress <- query_pair userId moduleId ;;
        let progressData :=
          mkData None None (Some 100) None (Some true)
                 (Some (or_num score 0)) (Some (now req)) in
        let respond :=
          completedProgress <- query_pair_join userId moduleId ;;
          Ret (mkRes 200 (Progress "Módulo completado correctamente"
                                   (hd_error completedProgress))) in
        match existingProgress with
        | [] =>
            _ <- insert_progreso
                   (set_tiempo (set_owner progressData userId moduleId) 0) ;;
            respond
        | existing :: _ =>
            _ <- update_progreso (id_progreso existing) progressData ;;
            respond
        end
    end.

(** The operations of the progress tracker, as a caller names them. *)
Inductive operation : Type :=
| List
| Get
| Upsert
| Complete.

Definition handler (op : operation) : request -> prog response :=
  match op with
  | List => listProgress
  | Get => getProgress
  | Upsert => upsertProgress
  | Complete => completeProgress
  end.

(** A handler served alone. *)
Definition serve (op : operation) (req : request) (s : store) : response * store :=
  run internal_error (handler op req) s.

(** Requests served one after the other; the responses come in order. *)
Fixpoint serve_all (calls : list (operation * request)) (s : store)
  : list response * store :=
  match calls with
  | [] => ([], s)
  | (op, req) :: rest =>
      let (r, s') := serve op req s in
      let (rs, s'') := serve_all rest s' in
      (r :: rs, s'')
  end.

(** Requests in flight together under a schedule of the event loop. *)
Definition serve_concurrently (calls : list (operation * request))
           (schedule : list nat) (s : store) : list (prog response) * store :=
  interleave internal_error schedule
    (map (fun c => handler (fst c) (snd c)) calls) s.

End ProgressRoutes.

(* ================================================================== *)
(** ** games.js *)

Module GameRoutes.
Import Auth.

Record result_body : Type := mkResultBody {
  gameType : js string;
  score : js Z;
  levelReached : js Z;
  timePlayed : js Z;
  metadata : option string     (* [None]: absent or falsy; [Some t]: a value
                                  whose [JSON.stringify] is [t] *)
}.

Record request : Type := mkReq {
  req_user : user;
  req_body : result_body;
  now : Z
}.

(** [router.post('/result')] *)
Definition recordGameResult (req : request) : prog response :=
  let gameType := gameType (req_body req) in
  let score := score (req_body req) in
  let levelReached := levelReached (req_body req) in
  let timePlayed := timePlayed (req_body req) in
  let metadata := metadata (req_body req) in
  if negb (truthy_str gameType) || is_undefined score
     || negb (truthy_num levelReached) || negb (truthy_num timePlayed)
  then Ret (mkRes 400 (Error "Datos incompletos"))
  else if lt score 0 || lt levelReached 1 || lt timePlayed 0
  then Ret (mkRes 400 (Error "Valores inválidos"))
  else
    let gameResult :=
      mkGame (if is_guest (req_user req) then null else userId (req_user req))
             (if is_guest (req_user req) then guestId (req_user req) else null)
             (or_str gameType "")        (* a non-empty string, past the check *)
             score levelReached timePlayed metadata (now req) in
    insertId <- insert_resultado gameResult ;;
    Ret (mkRes 201 (Saved insertId score levelReached)).

(** Characters are code units below 256. *)
Definition code (c : ascii) : Z := Z.of_nat (nat_of_ascii c).

(** White space and line terminators. *)
Definition is_space (c : ascii) : bool :=
  let n := code c in
  ((9 <=? n) && (n <=? 13)) || (n =? 32) || (n =? 160).

Fixpoint trim_start (s : string) : string :=
  match s with
  | String c s' => if is_space c then trim_start s' else s
  | EmptyString => s
  end.

(** The value of a digit or letter as a numeral. *)
Definition digit_of (c : ascii) : option Z :=
  let n := code c in
  if (48 <=? n) && (n <=? 57) then Some (n - 48)
  else if (97 <=? n) && (n <=? 122) then Some (n - 87)
  else if (65 <=? n) && (n <=? 90) then Some (n - 55)
  else None.

(** The number written by the longest prefix of digits of the radix;
    [acc] is what has been read, [None] before the first digit. *)
Fixpoint read_digits (radix : Z) (s : string) (acc : option Z) : option Z :=
  match s with
  | EmptyString => acc
  | String c s' =>
      match digit_of c with
      | Some d =>
          if d <? radix
          then read_digits radix s' (Some (opt_default acc 0 * radix + d))
          else acc
      | None => acc
      end
  end.

Definition ToString (v : js string) : string :=
  match v with
  | undefined => "undefined"
  | null => "null"
  | just s => s
  end.

(** [parseInt(v)] with no radix; [None] is [NaN]. *)
Definition parseInt (v : js string) : option Z :=
  let S := trim_start (ToString v) in
  let (sign, S) :=
    match S with
    | String "-"%char r => (-1, r)
    | String "+"%char r => (1, r)
    | _ => (1, S)
    end in
  let (R, S) :=
    match S with
    | String "0"%char (String "x"%char r) => (16, r)
    | String "0"%char (String "X"%char r) => (16, r)
    | _ => (10, S)
    end in
  option_map (Z.mul sign) (read_digits R S None).

(** [parseInt(req.query.limit) || 10] *)
Definition or_default (n : option Z) (d : Z) : Z :=
  match n with
  | Some z => if z =? 0 then d else z
  | None => d
  end.

(** [const limit = Math.min(parseInt(req.query.limit) || 10, 100)] *)
Definition limit (query_limit : js string) : Z :=
  Z.min (or_default (parseInt query_limit) 10) 100.

(** [leaderboard.map((entry, index) => ({ rank: index + 1, ...entry }))] *)
Fixpoint with_rank (index : Z) (l : list entry) : list (Z * entry) :=
  match l with
  | [] => []
  | e :: l' => (index + 1, e) :: with_rank (index + 1) l'
  end.

(** [router.get('/leaderboard/:gameType')] *)
Definition getLeaderboard (gameType : string) (query_limit : js string) : prog response :=
  let limit := limit query_limit in
  leaderboard <- query_leaderboard gameType limit ;;
  let leaderboardWithRank := with_rank 0 leaderboard in
  Ret (mkRes 200 (Board gameType (List.length leaderboard) leaderboardWithRank)).

End GameRoutes.

(* ================================================================== *)
(** ** Predicates used in the statements *)

(** A boolean order read as a relation. *)
Definition holds {A} (leb : A -> A -> bool) (a b : A) : Prop := leb a b = true.

(** A handler that has sent its response. *)
Definition answered {R} (p : prog R) : Prop :=
  match p with Ret _ => True | Await _ _ => False end.

Module ProgressSpec.
Import Auth ProgressRoutes.

Definition from_guest (c : operation * request) : Prop :=
  is_guest (req_user (snd c)) = true.

(** The two answers a guest gets: the empty list, or the notice that
    progress is not saved. *)
Definition acknowledged (r : response) : Prop :=
  status r = 200 /\ (body r = Rows [] \/ body r = NotPersisted).



End ProgressSpec.

Module GameSpec.
Import Auth GameRoutes.

(** [a] is strictly below [b] in the order of a column, NULL lowest. *)
Definition below (a b : option Z) : Prop := col_ltb a b = true.

(** The order of the leaderboard in words: a higher score first; on equal
    scores a higher level first; on equal levels a shorter time first, or
    the same time. *)
Definition comes_before (a b : entry) : Prop :=
  below (e_score b) (e_score a)
  \/ (e_score a = e_score b
      /\ (below (e_level_reached b) (e_level_reached a)
          \/ (e_level_reached a = e_level_reached b
              /\ (below (e_time_played a) (e_time_played b)
                  \/ e_time_played a = e_time_played b)))).

(** The same order on the rows of the table. *)
Definition row_before : resultado -> resultado -> Prop := holds rank_leb.

(** Score, level and time of a ranked line, next to its rank. *)
Definition line (re : Z * entry) : Z * (option Z * option Z * option Z) :=
  (fst re, (e_score (snd re), e_level_reached (snd re), e_time_played (snd re))).

Definition lines (r : response) : list (Z * (option Z * option Z * option Z)) :=
  match body r with
  | Board _ _ l => map line l
  | _ => []
  end.

(** A served game call. *)
Definition record (req : request) (s : store) : response * store :=
  run internal_error (recordGameResult req) s.

Definition top (gameType : string) (query_limit : js string) (s : store) : response :=
  fst (run internal_error (getLeaderboard gameType query_limit) s).

(** The body passes the two checks of [router.post('/result')]. *)
Definition accepted (b : result_body) : Prop :=
  truthy_str (gameType b) = true
  /\ is_undefined (score b) = false
  /\ truthy_num (levelReached b) = true
  /\ truthy_num (timePlayed b) = true
  /\ lt (score b) 0 = false
  /\ lt (levelReached b) 1 = false
  /\ lt (timePlayed b) 0 = false.

(** The id under which the caller's results are filed. *)
Definition filing_id (u : user) : js Z :=
  if is_guest u then guestId u else userId u.

(** Exactly one of the two owner columns of a stored result is set. *)
Definition one_owner (r : resultado) : Prop :=
  (rj_id_usuario r <> None /\ rj_id_sesion_invitado r = None)
  \/ (rj_id_usuario r = None /\ rj_id_sesion_invitado r <> None).

End GameSpec.

(* ================================================================== *)
(** ** Sample data *)

Module Samples.
Import Auth.

Definition one_module : store :=
  mkStore [mkModulo 1 0] [(7, "Ada")] [(3, "Bob")] [] 1 [] 1.

Definition guest_bob : user :=
  normalise (guest_claims 3 "5f0c" "Bob").

Definition ada : user :=
  normalise (registered_claims 7 "a@x.com" "student").

Definition guest_request (pct : js Z) : ProgressRoutes.request :=
  ProgressRoutes.mkReq guest_bob 1 (ProgressRoutes.mkBody pct (just 30) (just 5)) 1000.

Definition ada_request (pct time score : js Z) : ProgressRoutes.request :=
  ProgressRoutes.mkReq ada 1 (ProgressRoutes.mkBody pct time score) 1000.

(** Ada is at 80% of module 1, after 300 seconds and with 50 points. *)
Definition ada_at_80 : progreso :=
  mkProgreso 1 (Some 7) 1 80 300 (Some 900) false 50.

Definition one_row : store :=
  mkStore [mkModulo 1 0] [(7, "Ada")] [(3, "Bob")] [ada_at_80] 2 [] 1.


(** A stand-in for the token library: the token ["expired"] is past its
    expiry, ["ada"] decodes to Ada's payload, anything else has a bad
    signature. *)
Definition sample_verify (token secret : string) : verified :=
  if (token =? "expired")%string then Failed TokenExpiredError
  else if (token =? "ada")%string
       then Decoded (registered_claims 7 "a@x.com" "student")
       else Failed JsonWebTokenError.

Definition game_row (id score level time : Z) : resultado :=
  mkResultado id (Some 7) None "quiz" (Some score) (Some level) (Some time)
              None 500.

(** The three results of the specification's example, in that order. *)
Definition three_results : store :=
  mkStore [mkModulo 1 0] [(7, "Ada")] [(3, "Bob")] [] 1
          [game_row 1 10 2 50; game_row 2 10 2 30; game_row 3 15 1 99] 4.

(** Two results that tie on score, level and time. *)
Definition tied_results : store :=
  mkStore [mkModulo 1 0] [(7, "Ada")] [(3, "Bob")] [] 1
          [game_row 1 10 2 30; game_row 2 10 2 30] 3.

Definition game_request (u : user) (score level time : js Z) : GameRoutes.request :=
  GameRoutes.mkReq u (GameRoutes.mkResultBody (just "quiz") score level time None) 1000.

(** The identity of a verified token whose payload is
    [{ guestId: null, username: 'Nil', userType: 'guest' }]. *)
Definition null_guest : user :=
  normalise (mkClaims undefined null undefined undefined (just "Nil") (just "guest")).


End Samples.

(* ================================================================== *)
(** ** Further predicates on the progress table *)

Module ProgressFrame.
Import Auth ProgressRoutes.




End ProgressFrame.

Module MoreSamples.
Import Auth Samples.

Definition eve : user :=
  normalise (registered_claims 8 "e@x.com" "estudiante").

Definition eve_request (pct time score : js Z) : ProgressRoutes.request :=
  ProgressRoutes.mkReq eve 1 (ProgressRoutes.mkBody pct time score) 2000.

(** Ada and Eve both have a row for module 1; module 2 has none. *)
Definition two_owners : store :=
  mkStore [mkModulo 1 0; mkModulo 2 1] [(7, "Ada"); (8, "Eve")] [(3, "Bob")]
          [ada_at_80; mkProgreso 2 (Some 8) 1 20 40 (Some 950) false 5] 3 [] 1.

End MoreSamples.

(* ================================================================== *)
(** ** games.js: reading the results back *)

Module GameReads.
Import Auth GameRoutes GameSpec.

(** [MAX] and [MIN] of a column: NULLs are skipped, and the result is
    NULL when nothing is left. *)
Definition col_max2 (a b : option Z) : option Z := if col_ltb a b then b else a.

Definition col_min2 (a b : option Z) : option Z :=
  match a, b with
  | None, _ => b
  | _, None => a
  | Some x, Some y => Some (Z.min x y)
  end.

Definition col_MAX (l : list (option Z)) : option Z := fold_right col_max2 None l.
Definition col_MIN (l : list (option Z)) : option Z := fold_right col_min2 None l.

(** The non-NULL values of a column. *)
Fixpoint present (l : list (option Z)) : list Z :=
  match l with
  | [] => []
  | Some z :: l' => z :: present l'
  | None :: l' => present l'
  end.

(** [AVG] of a column, given by the sum and the number of its non-NULL
    values, of which it is the quotient; NULL when there is none. *)
Definition col_AVG (l : list (option Z)) : option (Z * nat) :=
  match present l with
  | [] => None
  | zs => Some (fold_right Z.add 0 zs, List.length zs)
  end.

(** [userCondition] and [userParam]: a guest's results are those filed
    under the guest session, anyone else's those filed under the user. *)
Definition owned_by (guest : bool) (param : option Z) (r : resultado) : bool :=
  option_Z_eqb (if guest then rj_id_sesion_invitado r else rj_id_usuario r) param.

(** [WHERE ${userCondition} AND tipo_juego = ?] *)
Definition own_results (s : store) (guest : bool) (param : option Z)
           (gameType : string) : list resultado :=
  filter (fun r => owned_by guest param r && (tipo_juego r =? gameType)%string)
         (resultados_juegos s).

(** The one row of the aggregate query. *)
Record summary : Type := mkSummary {
  best_score : option Z;
  highest_level : option Z;
  fastest_time : option Z;
  times_played : nat;
  average_score : option (Z * nat);
  last_played : option Z
}.

Definition summary_of (rows : list resultado) : summary :=
  mkSummary (col_MAX (map rj_puntuacion rows))
            (col_MAX (map nivel_alcanzado rows))
            (col_MIN (map tiempo_jugado rows))
            (List.length rows)
            (col_AVG (map rj_puntuacion rows))
            (col_MAX (map (fun r => Some (fecha_juego r)) rows)).

(** A line of the second query. *)
Record best_game : Type := mkBest {
  bg_score : option Z;
  bg_level_reached : option Z;
  bg_time_played : option Z;
  bg_played_at : Z;
  bg_metadata : option string
}.

Definition best_of (r : resultado) : best_game :=
  mkBest (rj_puntuacion r) (nivel_alcanzado r) (tiempo_jugado r)
         (fecha_juego r) (metadatos r).

Record personal : Type := mkPersonal {
  p_gameType : string;
  p_summary : summary;
  p_bestGame : option best_game      (* [bestGameDetails[0] || null] *)
}.

(** [router.get('/personal-best/:gameType')], past [authenticateToken]:
    [Ok] is the 200 with the result, [Throw] the 500 of the [catch]
    block.  The handler only reads. *)
Definition getPersonalBest (u : user) (gameType : string) (s : store)
  : outcome personal :=
  let userParam := if is_guest u then guestId u else userId u in
  match bind userParam with
  | Throw => Throw
  | Ok param =>
      let rows := own_results s (is_guest u) param gameType in
      let personalBest := summary_of rows in
      let bestGameDetails := map best_of (firstn 1 (sort_by rank_leb rows)) in
      Ok (mkPersonal gameType personalBest (hd_error bestGameDetails))
  end.

(** The ranked lines of a leaderboard response. *)
Definition board (r : response) : list (Z * entry) :=
  match body r with
  | Board _ _ l => l
  | _ => []
  end.

Definition total_entries (r : response) : nat :=
  match body r with
  | Board _ n _ => n
  | _ => O
  end.

(** The results stored for a game type. *)
Definition of_game (s : store) (gameType : string) : list resultado :=
  filter (fun r => (tipo_juego r =? gameType)%string) (resultados_juegos s).

End GameReads.

(* ================================================================== *)
(** ** auth.js: accounts and guest sessions *)

Module AuthRoutes.
Import Auth.

(** A row of [usuarios]. *)
Record usuario : Type := mkUsuario {
  u_id_usuario : Z;
  nombre : string;
  correo_electronico : string;
  contrasena : string;
  tipo_usuario : string;
  u_fecha_creacion : Z;
  u_esta_activo : bool;
  ultimo_inicio_sesion : option Z
}.

(** A row of [sesiones_invitados]. *)
Record sesion : Type := mkSesion {
  id_sesion_invitado : Z;
  identificador_sesion : string;
  nombre_usuario : string;
  s_fecha_creacion : Z;
  fecha_expiracion : Z;
  s_esta_activo : bool
}.

(** Modelled from the spec: the two tables behind the auth routes, whose
    declarations (the SQL schema) are not among the sources.  The columns
    are the ones the routes write and read; a string column compares by
    equality of strings; keys are handed out by a counter. *)
Record accounts : Type := mkAccounts {
  t_usuarios : list usuario;
  next_id_usuario : Z;
  t_sesiones : list sesion;
  next_id_sesion : Z
}.

(** What [jwt.sign(payload, secret, { expiresIn })] is given: the token
    stands for its payload, the key it is signed with and its lifetime in
    seconds. *)
Record signed : Type := mkSigned {
  payload : claims;
  signed_with : string;
  expiresIn : Z
}.

Inductive auth_body : Type :=
| AError (error : string)
| Account (message : string) (id : Z) (name email userType : string) (token : signed)
| GuestCreated (id : Z) (sessionId username : string) (expiresAt : Z) (token : signed)
| ValidGuest (id : Z) (sessionId username : string)
| ValidUser (id : Z) (name email userType : string)
| LoggedOut
| GuestProfile (id : Z) (username sessionId : string) (expiresAt : Z)
| UserProfile (id : Z) (name email userType : string) (createdAt : Z)
              (lastLogin : option Z).

Record auth_response : Type := mkAuthRes { a_status : Z; a_body : auth_body }.

Definition auth_internal_error : auth_response :=
  mkAuthRes 500 (AError "Error interno del servidor").

(** [s.trim()] *)
Fixpoint trim_end (s : string) : string :=
  match s with
  | EmptyString => EmptyString
  | String c s' =>
      match trim_end s' with
      | EmptyString => if GameRoutes.is_space c then EmptyString
                       else String c EmptyString
      | t => String c t
      end
  end.

Definition trim (s : string) : string := trim_end (GameRoutes.trim_start s).

(** [s.toLowerCase()], on code units below 256: the letters A-Z and the
    accented capitals (all of 192-222 but the sign at 215) move up by
    32. *)
Definition lower_char (c : ascii) : ascii :=
  let n := GameRoutes.code c in
  if ((65 <=? n) && (n <=? 90))
     || ((192 <=? n) && (n <=? 222) && negb (n =? 215))
  then ascii_of_nat (Z.to_nat (n + 32))
  else c.

Fixpoint toLowerCase (s : string) : string :=
  match s with
  | EmptyString => EmptyString
  | String c s' => String (lower_char c) (toLowerCase s')
  end.

(** [findByField('usuarios', 'correo_electronico', value)]: the first
    row, or null. *)
Definition findByEmail (db : accounts) (value : string) : option usuario :=
  find (fun u => (correo_electronico u =? value)%string) (t_usuarios db).

Section Routes.

(** [process.env.JWT_SECRET], and the bcryptjs package: [bcrypt.hash]
    with the salt it draws, and [bcrypt.compare]. *)
Variable JWT_SECRET : js string.
Variable bcrypt_hash : string -> string -> string.
Variable bcrypt_compare : string -> string -> bool.

Definition sign (payload : claims) (expiresIn : Z) : signed :=
  mkSigned payload (or_str JWT_SECRET "maxwavex_secret_key") expiresIn.

(** A registration past [registerValidation]: [valid] says that
    [validationResult(req)] is empty, the fields are as the sanitizers
    left them, [salt] is the salt [bcrypt.hash] draws and [now] the
    reading of [new Date()]. *)
Record register_request : Type := mkRegister {
  r_valid : bool;
  r_name : string;
  r_email : string;
  r_password : string;
  r_salt : string;
  r_now : Z
}.

(** [router.post('/register')] *)
Definition register (req : register_request) (db : accounts)
  : auth_response * accounts :=
  if negb (r_valid req) then (mkAuthRes 400 (AError "Datos inválidos"), db)
  else
    let email := toLowerCase (r_email req) in
    match findByEmail db email with
    | Some existingUser =>
        (mkAuthRes 409 (AError "El email ya está registrado"), db)
    | None =>
        let passwordHash := bcrypt_hash (r_password req) (r_salt req) in
        let insertId := next_id_usuario db in
        let userData :=
          mkUsuario insertId (trim (r_name req)) email passwordHash
                    "estudiante" (r_now req) true None in
        let token :=
          sign (mkClaims (just insertId) undefined undefined (just email)
                         undefined (just "student"))
               86400 in
        (mkAuthRes 201
           (Account "Usuario registrado exitosamente" insertId
                    (trim (r_name req)) email "student" token),
         mkAccounts (t_usuarios db ++ [userData]) (insertId + 1)
                    (t_sesiones db) (next_id_sesion db))
    end.

Record login_request : Type := mkLogin {
  l_valid : bool;
  l_email : string;
  l_password : string;
  l_now : Z
}.

(** [router.post('/login')] *)
Definition login (req : login_request) (db : accounts)
  : auth_response * accounts :=
  if negb (l_valid req) then (mkAuthRes 400 (AError "Datos inválidos"), db)
  else
    match findByEmail db (toLowerCase (l_email req)) with
    | None => (mkAuthRes 401 (AError "Credenciales inválidas"), db)
    | Some user =>
        if negb (u_esta_activo user)
        then (mkAuthRes 401 (AError "Cuenta desactivada"), db)
        else if negb (bcrypt_compare (l_password req) (contrasena user))
        then (mkAuthRes 401 (AError "Credenciales inválidas"), db)
        else
          let updated :=
            map (fun u =>
                   if u_id_usuario u =? u_id_usuario user
                   then mkUsuario (u_id_usuario u) (nombre u)
                                  (correo_electronico u) (contrasena u)
                                  (tipo_usuario u) (u_fecha_creacion u)
                                  (u_esta_activo u) (Some (l_now req))
                   else u)
                (t_usuarios db) in
          let token :=
            sign (mkClaims (just (u_id_usuario user)) undefined undefined
                           (just (correo_electronico user)) undefined
                           (just (tipo_usuario user)))
                 86400 in
          (mkAuthRes 200
             (Account "Login exitoso" (u_id_usuario user) (nombre user)
                      (correo_electronico user) (tipo_usuario user) token),
           mkAccounts updated (next_id_usuario db)
                      (t_sesiones db) (next_id_sesion db))
    end.

(** A request for a guest session: [uuid] is what [uuidv4()] draws. *)
Record guest_request : Type := mkGuest {
  g_username : js string;
  g_uuid : string;
  g_now : Z
}.

(** [router.post('/guest')] *)
Definition createGuestSession (req : guest_request) (db : accounts)
  : auth_response * accounts :=
  match g_username req with
  | just username =>
      if negb (truthy_str (g_username req))
         || (Z.of_nat (String.length (trim username)) <? 2)
      then (mkAuthRes 400
              (AError "Nombre de usuario requerido (mínimo 2 caracteres)"), db)
      else
        let sessionId := g_uuid req in
        let expiresAt := g_now req + 3600000 in
        let insertId := next_id_sesion db in
        let guestData :=
          mkSesion insertId sessionId (trim username) (g_now req) expiresAt true in
        let token :=
          sign (mkClaims undefined (just insertId) (just sessionId) undefined
                         (just (trim username)) (just "guest"))
               3600 in
        (mkAuthRes 200
           (GuestCreated insertId sessionId (trim username) expiresAt token),
         mkAccounts (t_usuarios db) (next_id_usuario db)
                    (t_sesiones db ++ [guestData]) (insertId + 1))
  | _ =>
      (mkAuthRes 400
         (AError "Nombre de usuario requerido (mínimo 2 caracteres)"), db)
  end.

(** [router.get('/verify')], past [authenticateToken]; [now] is the
    reading of [NOW()]. *)
Definition verify (u : user) (now : Z) (db : accounts) : auth_response :=
  if is_guest u then
    match bind (guestId u) with
    | Throw => auth_internal_error
    | Ok id =>
        let guest :=
          filter (fun r => option_Z_eqb (Some (id_sesion_invitado r)) id
                           && s_esta_activo r && (now <? fecha_expiracion r))
                 (t_sesiones db) in
        match guest with
        | [] => mkAuthRes 401 (AError "Sesión de invitado expirada")
        | g :: _ =>
            mkAuthRes 200
              (ValidGuest (id_sesion_invitado g) (identificador_sesion g)
                          (nombre_usuario g))
        end
    end
  else
    match bind (userId u) with
    | Throw => auth_internal_error
    | Ok id =>
        match find (fun r => option_Z_eqb (Some (u_id_usuario r)) id)
                   (t_usuarios db) with
        | Some user =>
            if negb (u_esta_activo user)
            then mkAuthRes 401 (AError "Usuario no encontrado o inactivo")
            else mkAuthRes 200
                   (ValidUser (u_id_usuario user) (nombre user)
                              (correo_electronico user) (tipo_usuario user))
        | None => mkAuthRes 401 (AError "Usuario no encontrado o inactivo")
        end
    end.

(** [router.post('/logout')] *)
Definition logout (u : user) (db : accounts) : auth_response * accounts :=
  if is_guest u && truthy_num (guestId u) then
    match guestId u with
    | just id =>
        (mkAuthRes 200 LoggedOut,
         mkAccounts (t_usuarios db) (next_id_usuario db)
                    (map (fun r =>
                            if id_sesion_invitado r =? id
                            then mkSesion (id_sesion_invitado r)
                                          (identificador_sesion r)
                                          (nombre_usuario r) (s_fecha_creacion r)
                                          (fecha_expiracion r) false
                            else r)
                         (t_sesiones db))
                    (next_id_sesion db))
    | _ => (mkAuthRes 200 LoggedOut, db)
    end
  else (mkAuthRes 200 LoggedOut, db).

(** [router.get('/profile')] *)
Definition profile (u : user) (db : accounts) : auth_response :=
  if is_guest u then
    match bind (guestId u) with
    | Throw => auth_internal_error
    | Ok id =>
        let guest :=
          filter (fun r => option_Z_eqb (Some (id_sesion_invitado r)) id
                           && s_esta_activo r)
                 (t_sesiones db) in
        match guest with
        | [] => mkAuthRes 404 (AError "Sesión no encontrada")
        | g :: _ =>
            mkAuthRes 200
              (GuestProfile (id_sesion_invitado g) (nombre_usuario g)
                            (identificador_sesion g) (fecha_expiracion g))
        end
    end
  else
    match bind (userId u) with
    | Throw => auth_internal_error
    | Ok id =>
        match find (fun r => option_Z_eqb (Some (u_id_usuario r)) id)
                   (t_usuarios db) with
        | Some user =>
            mkAuthRes 200
              (UserProfile (u_id_usuario user) (nombre user)
                           (correo_electronico user) (tipo_usuario user)
                           (u_fecha_creacion user) (ultimo_inicio_sesion user))
        | None => mkAuthRes 404 (AError "Usuario no encontrado")
        end
    end.

(** Registrations and logins served one after the other. *)
Inductive account_call : Type :=
| Register (req : register_request)
| Login (req : login_request).

Definition serve_account (c : account_call) (db : accounts)
  : auth_response * accounts :=
  match c with
  | Register req => register req db
  | Login req => login req db
  end.

Fixpoint serve_accounts (calls : list account_call) (db : accounts) : accounts :=
  match calls with
  | [] => db
  | c :: rest => serve_accounts rest (snd (serve_account c db))
  end.

End Routes.

(** The identity a token gives once verified. *)
Definition identity_of (t : signed) : user := normalise (payload t).

Definition token_of_response (r : auth_response) : option signed :=
  match a_body r with
  | Account _ _ _ _ _ t => Some t
  | GuestCreated _ _ _ _ t => Some t
  | _ => None
  end.

(** The keys of the sessions are below the counter. *)
Definition sessions_fresh (db : accounts) : Prop :=
  Forall (fun r => id_sesion_invitado r < next_id_sesion db) (t_sesiones db).

Definition users_fresh (db : accounts) : Prop :=
  Forall (fun r => u_id_usuario r < next_id_usuario db) (t_usuarios db).

(** E-mail addresses are stored in lower case and no two accounts share
    one. *)
Definition emails_in_order (db : accounts) : Prop :=
  NoDup (map correo_electronico (t_usuarios db))
  /\ Forall (fun u => toLowerCase (correo_electronico u) = correo_electronico u)
            (t_usuarios db).

End AuthRoutes.

Module TokenSpec.

(** A string without a space. *)
Fixpoint spaceless (s : string) : bool :=
  match s with
  | EmptyString => true
  | String c s' => negb (Ascii.eqb c " "%char) && spaceless s'
  end.

End TokenSpec.

Module AuthSamples.
Import Auth AuthRoutes.

(** A stand-in for bcryptjs: the hash is the salt followed by the
    password, and a password matches a hash that ends with it. *)
Definition toy_hash (password salt : string) : string := (salt ++ password)%string.

Fixpoint ends_with (h p : string) : bool :=
  (h =? p)%string
  || match h with
     | EmptyString => false
     | String _ h' => ends_with h' p
     end.

Definition toy_compare (password hash : string) : bool := ends_with hash password.

Definition no_accounts : accounts := mkAccounts [] 1 [] 1.

Definition ada_registers : register_request :=
  mkRegister true "  Ada " "A@X.com" "secret1" "s4lt" 100.

Definition ada_logs_in : login_request :=
  mkLogin true "a@x.COM" "secret1" 200.

Definition bob_asks : guest_request := mkGuest (just " Bob ") "5f0c" 1000.

(** A table with one guest session, created at 1000. *)
Definition bob_is_in : accounts :=
  mkAccounts [] 1 [mkSesion 1 "5f0c" "Bob" 1000 3601000 true] 2.

End AuthSamples.

(* ================================================================== *)
(** ** database.js: transactions and statement texts *)

Module Database.

(** What is asked of the pool and of the connection, in order. *)
Inductive event : Type :=
| GetConnection
| BeginTransaction
| Callback
| Commit
| Rollback
| Release.

Definition event_eqb (a b : event) : bool :=
  match a, b with
  | GetConnection, GetConnection | BeginTransaction, BeginTransaction
  | Callback, Callback | Commit, Commit | Rollback, Rollback
  | Release, Release => true
  | _, _ => false
  end.

(** Which of the awaited operations of the driver succeed. *)
Record driver : Type := mkDriver {
  connects : bool;
  begins : bool;
  commits : bool;
  rolls_back : bool
}.

(** The [catch] and [finally] blocks of [transaction]: the rollback is
    awaited, the error is thrown again (or the one of the rollback), and
    the connection is released. *)
Definition abandon {R} (trace : list event) : outcome R * list event :=
  (Throw, (trace ++ [Rollback; Release])%list).

(** [transaction(callback)]; [callback] is what awaiting the callback
    gives. *)
Definition transaction {R} (d : driver) (callback : outcome R)
  : outcome R * list event :=
  if negb (connects d) then (Throw, [GetConnection])
  else if negb (begins d) then abandon [GetConnection; BeginTransaction]
  else
    match callback with
    | Throw => abandon [GetConnection; BeginTransaction; Callback]
    | Ok result =>
        if negb (commits d)
        then abandon [GetConnection; BeginTransaction; Callback; Commit]
        else (Ok result,
              [GetConnection; BeginTransaction; Callback; Commit; Release])
    end.

(** [list.join(sep)] *)
Fixpoint join (sep : string) (l : list string) : string :=
  match l with
  | [] => ""
  | [x] => x
  | x :: rest => x ++ sep ++ join sep rest
  end.

Section Statements.

(** The values of an object's properties, whatever they are. *)
Variable value : Type.

(** [Object.keys(data)] and [Object.values(data)] of an object given by
    its properties in order. *)
Definition keys (data : list (string * value)) : list string := map fst data.
Definition values (data : list (string * value)) : list value := map snd data.

(** [insert(table, data)]: the statement and its parameters. *)
Definition insert_statement (table : string) (data : list (string * value))
  : string * list value :=
  let fields := keys data in
  let placeholders := join ", " (map (fun _ => "?") fields) in
  ("INSERT INTO " ++ table ++ " (" ++ join ", " fields ++ ") VALUES ("
     ++ placeholders ++ ")",
   values data).

(** The key column [update] infers for a table. *)
Definition inferred_idField (table : string) : string :=
  if (table =? "usuarios")%string then "id_usuario"
  else if (table =? "modulos")%string then "id_modulo"
  else if (table =? "progreso_usuarios")%string then "id_progreso"
  else if (table =? "sesiones_invitados")%string then "id_sesion_invitado"
  else "id".

(** [update(table, id, data, idField = null)] *)
Definition update_statement (table : string) (id : value)
           (data : list (string * value)) (idField : js string)
  : string * list value :=
  let fields := keys data in
  let setClause := join ", " (map (fun field => field ++ " = ?") fields) in
  let idField :=
    if negb (truthy_str idField) then inferred_idField table
    else match idField with just f => f | _ => inferred_idField table end in
  ("UPDATE " ++ table ++ " SET " ++ setClause ++ " WHERE " ++ idField ++ " = ?",
   (values data ++ [id])%list).

(** [findById(table, id)] and [deleteById(table, id)] *)
Definition findById_statement (table : string) (id : value) : string * list value :=
  ("SELECT * FROM " ++ table ++ " WHERE id = ? LIMIT 1", [id]).

Definition deleteById_statement (table : string) (id : value) : string * list value :=
  ("DELETE FROM " ++ table ++ " WHERE id = ?", [id]).

End Statements.

(** The number of placeholders in a statement. *)
Fixpoint placeholders (s : string) : nat :=
  match s with
  | EmptyString => O
  | String c s' => (if Ascii.eqb c "?"%char then 1 else 0) + placeholders s'
  end.

(** Names without a question mark. *)
Definition plain (s : string) : Prop := placeholders s = O.

End Database.

(* ================================================================== *)
(** ** modules.js *)

Module ModuleRoutes.

(** Modelled from the spec: the table [modulos] with the columns that
    modules.js reads; its declaration (the SQL schema) is not among the
    sources. *)
Record modulo_row : Type := mkModuloRow {
  r_id_modulo : Z;
  titulo : string;
  descripcion : string;
  contenido : string;
  tipo_contenido : string;
  nivel_dificultad : string;
  r_indice_orden : Z;
  r_esta_activo : bool;
  r_fecha_creacion : Z
}.

(** A line of the two list queries; [is_active] is selected by the first
    only. *)
Record module_line : Type := mkLine {
  l_id : Z;
  l_title : string;
  l_description : string;
  l_content_type : string;
  l_difficulty_level : string;
  l_order_index : Z;
  l_is_active : option bool
}.

(** [moduleResponse] *)
Record module_detail : Type := mkDetail {
  d_id : Z;
  d_title : string;
  d_description : string;
  d_content : string;
  d_content_type : string;
  d_difficulty_level : string;
  d_order_index : Z;
  d_is_active : bool;
  d_created_at : Z
}.

Inductive module_response : Type :=
| Refused (status : Z) (error : string)
| Listed (modules : list module_line)
| Detail (module : module_detail).

Definition by_order (a b : modulo_row) : bool :=
  r_indice_orden a <=? r_indice_orden b.

Definition line_of (with_active : bool) (m : modulo_row) : module_line :=
  mkLine (r_id_modulo m) (titulo m) (descripcion m) (tipo_contenido m)
         (nivel_dificultad m) (r_indice_orden m)
         (if with_active then Some (r_esta_activo m) else None).

(** [router.get('/')] *)
Definition listModules (table : list modulo_row) : module_response :=
  Listed (map (line_of true) (sort_by by_order (filter r_esta_activo table))).

(** [router.get('/:id')] *)
Definition getModule (id : Z) (table : list modulo_row) : module_response :=
  let moduleResult := filter (fun m => r_id_modulo m =? id) table in
  match moduleResult with
  | [] => Refused 404 "Módulo no encontrado"
  | module :: _ =>
      if negb (r_esta_activo module) then Refused 404 "Módulo no disponible"
      else Detail (mkDetail (r_id_modulo module) (titulo module)
                            (descripcion module) (contenido module)
                            (tipo_contenido module) (nivel_dificultad module)
                            (r_indice_orden module) (r_esta_activo module)
                            (r_fecha_creacion module))
  end.

(** [typeMap[contentType]], for the keys the object has of its own.  (A
    key it inherits, like ["constructor"], gives a value that is no
    string; [includes] then refuses it, as it refuses the name itself.) *)
Definition typeMap (contentType : string) : option string :=
  if (contentType =? "theory")%string then Some "teoria"
  else if (contentType =? "equations")%string then Some "ecuaciones"
  else if (contentType =? "applications")%string then Some "aplicaciones"
  else if (contentType =? "simulation")%string then Some "simulacion"
  else if (contentType =? "game")%string then Some "juego"
  else None.

Definition validTypes : list string :=
  ["teoria"; "ecuaciones"; "aplicaciones"; "simulacion"; "juego"].

Definition includes (l : list string) (x : string) : bool :=
  existsb (String.eqb x) l.

(** [const tipoContenido = typeMap[contentType] || contentType] *)
Definition tipoContenido (contentType : string) : string :=
  match typeMap contentType with
  | Some t => t
  | None => contentType
  end.

(** [router.get('/type/:contentType')] *)
Definition modulesByType (contentType : string) (table : list modulo_row)
  : module_response :=
  let tipoContenido := tipoContenido contentType in
  if negb (includes validTypes tipoContenido)
  then Refused 400 "Tipo de contenido inválido"
  else
    Listed (map (line_of false)
                (sort_by by_order
                   (filter (fun m => (tipo_contenido m =? tipoContenido)%string
                                     && r_esta_activo m)
                           table))).

(** The names a caller may use for a content type. *)
Definition accepted_names : list string :=
  ["theory"; "equations"; "applications"; "simulation"; "game";
   "teoria"; "ecuaciones"; "aplicaciones"; "simulacion"; "juego"].

Definition sample_modules : list modulo_row :=
  [mkModuloRow 1 "Ondas" "Intro" "..." "teoria" "principiante" 2 true 10;
   mkModuloRow 2 "Maxwell" "Ecuaciones" "..." "ecuaciones" "intermedio" 1 true 11;
   mkModuloRow 3 "Antenas" "Borrador" "..." "aplicaciones" "avanzado" 3 false 12].

End ModuleRoutes.

(* ================================================================== *)
(** * Properties *)

(** ** Running programs *)

Lemma run_Ret {R} (caught r : R) (s : store) : run caught (Ret r) s = (r, s).
Proof. reflexivity. Qed.

Lemma run_Await {R A} (caught : R) (c : call A) (k : A -> prog R) (s : store) :
  run caught (Await c k) s =
  match exec c s with
  | (Ok a, s') => run caught (k a) s'
  | (Throw, s') => (caught, s')
  end.
Proof. reflexivity. Qed.

Lemma set_nth_same {A} (l : list A) (n : nat) (x : A) :
  nth_error l n = Some x -> set_nth n x l = l.
Proof.
  revert n; induction l as [|y l IH]; intros [|n] H; simpl in *;
    try discriminate.
  - now inversion H.
  - now rewrite IH.
Qed.

Lemma resume_answered {R} (caught : R) (p : prog R) (s : store) :
  answered p -> resume caught p s = (p, s).
Proof. destruct p; simpl; [reflexivity | contradiction]. Qed.

(** Once every handler has answered, no schedule changes the store. *)
Lemma interleave_answered {R} (caught : R) (schedule : list nat)
      (pending : list (prog R)) (s : store) :
  Forall answered pending ->
  interleave caught schedule pending s = (pending, s).
Proof.
  intros Hall; induction schedule as [|i rest IH]; simpl; [reflexivity|].
  destruct (nth_error pending i) as [p|] eqn:Hp; [|exact IH].
  assert (Hans : answered p).
  { rewrite Forall_forall in Hall. apply Hall. eapply nth_error_In; eauto. }
  rewrite (resume_answered caught p s Hans).
  rewrite (set_nth_same _ _ _ Hp). exact IH.
Qed.

(** ** Guests and the progress table *)

Section GuestProgress.
Import Auth ProgressRoutes ProgressSpec Samples.

(** A guest is answered before any store call is made. *)
Lemma guest_handler (op : operation) (req : request) :
  is_guest (req_user req) = true ->
  exists r, handler op req = Ret r
            /\ status r = 200
            /\ (body r = Rows [] \/ body r = NotPersisted).
Proof.
  intros Hg.
  destruct op; simpl;
    unfold listProgress, getProgress, requireRegisteredUser,
           upsertProgress, completeProgress; rewrite Hg;
    eexists; (split; [reflexivity|]); simpl; auto.
Qed.

Lemma guest_serve (op : operation) (req : request) (s : store) :
  is_guest (req_user req) = true ->
  snd (serve op req s) = s
  /\ status (fst (serve op req s)) = 200
  /\ (body (fst (serve op req s)) = Rows []
      \/ body (fst (serve op req s)) = NotPersisted).
Proof.
  intros Hg. destruct (guest_handler op req Hg) as (r & Hr & Hst & Hb).
  unfold serve. rewrite Hr. simpl. auto.
Qed.

(** C9. Whatever sequence of progress calls guests make (list, get,
    upsert, complete), served one after the other or in flight together
    under any schedule, the store at the end is the store at the start,
    and every call is answered with status 200: the empty list or the
    "not persisted" acknowledgement, never an error. *)
Theorem guest_calls_write_nothing
        (calls : list (operation * request)) (schedule : list nat) (s : store) :
  Forall from_guest calls ->
  snd (serve_all calls s) = s
  /\ Forall acknowledged (fst (serve_all calls s))
  /\ snd (serve_concurrently calls schedule s) = s.
Proof.
  intros Hall. split; [|split].
  - induction Hall as [|[op req] rest Hg _ IH]; simpl; [reflexivity|].
    destruct (guest_serve op req s Hg) as (Hs & _).
    destruct (serve op req s) as [r s1]; simpl in Hs; subst s1.
    destruct (serve_all rest s) as [rs s2]; simpl in *. exact IH.
  - induction Hall as [|[op req] rest Hg _ IH]; simpl; [constructor|].
    destruct (guest_serve op req s Hg) as (Hs & Hst & Hb).
    destruct (serve op req s) as [r s1]; simpl in *; subst s1.
    destruct (serve_all rest s) as [rs s2]; simpl in *.
    constructor; [split; assumption | exact IH].
  - unfold serve_concurrently. rewrite interleave_answered; [reflexivity|].
    rewrite Forall_map.
    eapply Forall_impl; [|exact Hall].
    intros [op req] Hg.
    destruct (guest_handler op req Hg) as (r & Hr & _).
    simpl. rewrite Hr. exact I.
Qed.

Lemma guest_calls_write_nothing_witness :
  snd (serve_all [(Upsert, guest_request (just 40)); (Get, guest_request null);
                  (Complete, guest_request undefined)] one_module) = one_module
  /\ Forall acknowledged
       (fst (serve_all [(Upsert, guest_request (just 40)); (Get, guest_request null);
                        (Complete, guest_request undefined)] one_module))
  /\ snd (serve_concurrently
            [(Upsert, guest_request (just 40)); (Get, guest_request null);
             (Complete, guest_request undefined)] [0; 1; 2; 0]%nat one_module)
     = one_module.
Proof.
  apply guest_calls_write_nothing.
  repeat constructor.
Defined.

End GuestProgress.

(** ** Progress calls and the module lookup *)

Section ProgressCalls.
Import Auth ProgressRoutes ProgressSpec ProgressFrame Samples.

Lemma option_Z_eqb_null (a : option Z) : option_Z_eqb a None = false.
Proof. now destruct a. Qed.

Lemma option_Z_eqb_eq (a : option Z) (u : Z) :
  option_Z_eqb a (Some u) = true <-> a = Some u.
Proof.
  destruct a as [x|]; simpl; [|split; discriminate].
  rewrite Z.eqb_eq. split; congruence.
Qed.










End ProgressCalls.

(** ** The progress tracker *)

Section ProgressTracker.
Import Auth ProgressRoutes ProgressSpec ProgressFrame Samples.




(** C8.  A percentage below 0 or above 100 never reaches the store: the
    store after the call is the store before it, and the registered
    caller, whose percentage it is that the specification validates, is
    answered 400 with the range message.  (A guest has been answered
    before the range is looked at, with the "not persisted" notice.) *)
Theorem upsert_out_of_range_writes_nothing (req : request) (s : store) (p : Z) :
  completion_percentage (req_body req) = just p ->
  p < 0 \/ 100 < p ->
  snd (serve Upsert req s) = s
  /\ (is_guest (req_user req) = false ->
      fst (serve Upsert req s)
      = bad_request "El porcentaje de completado debe estar entre 0 y 100")
  /\ (is_guest (req_user req) = true ->
      fst (serve Upsert req s) = not_persisted).
Proof.
  intros Hp Hout.
  assert (Hbad : lt (just p) 0 || gt (just p) 100 = true).
  { unfold lt, gt; simpl. apply orb_true_iff.
    destruct Hout; [left; apply Z.ltb_lt | right; apply Z.gtb_lt]; lia. }
  unfold serve; simpl handler. unfold upsertProgress.
  rewrite Hp. simpl is_undefined. rewrite Hbad.
  destruct (is_guest (req_user req)); simpl; repeat split; congruence.
Qed.

Lemma upsert_out_of_range_writes_nothing_witness :
  snd (serve Upsert (ada_request (just 101) undefined undefined) one_row) = one_row
  /\ (is_guest ada = false ->
      fst (serve Upsert (ada_request (just 101) undefined undefined) one_row)
      = bad_request "El porcentaje de completado debe estar entre 0 y 100")
  /\ (is_guest ada = true ->
      fst (serve Upsert (ada_request (just 101) undefined undefined) one_row)
      = not_persisted).
Proof.
  apply (upsert_out_of_range_writes_nothing
           (ada_request (just 101) undefined undefined) one_row 101).
  - reflexivity.
  - right. lia.
Defined.


End ProgressTracker.


(** ** Ordering *)

Section SortBy.
Variable A : Type.
Variable leb : A -> A -> bool.
Hypothesis leb_total : forall a b, leb a b = true \/ leb b a = true.
Hypothesis leb_trans :
  forall a b c, leb a b = true -> leb b c = true -> leb a c = true.

Lemma insert_by_perm (x : A) (l : list A) :
  Permutation (x :: l) (insert_by leb x l).
Proof.
  induction l as [|y l IH]; simpl; [reflexivity|].
  destruct (leb x y); [reflexivity|].
  rewrite perm_swap. now apply perm_skip.
Qed.

Lemma sort_by_perm (l : list A) : Permutation l (sort_by leb l).
Proof.
  induction l as [|x l IH]; simpl; [reflexivity|].
  rewrite <- insert_by_perm. now apply perm_skip.
Qed.

Lemma insert_by_sorted (x : A) (l : list A) :
  StronglySorted (holds leb) l -> StronglySorted (holds leb) (insert_by leb x l).
Proof.
  induction 1 as [|y l Hs IH Hy]; simpl.
  - repeat constructor.
  - destruct (leb x y) eqn:Hxy.
    + constructor; [now constructor|].
      constructor; [exact Hxy|].
      eapply Forall_impl; [|exact Hy].
      intros z Hz. now apply (leb_trans x y z).
    + constructor; [exact IH|].
      assert (Hyx : holds leb y x).
      { destruct (leb_total x y); [congruence|assumption]. }
      eapply Permutation_Forall; [apply insert_by_perm|].
      now constructor.
Qed.

Lemma sort_by_sorted (l : list A) : StronglySorted (holds leb) (sort_by leb l).
Proof.
  induction l as [|x l IH]; simpl; [constructor|].
  now apply insert_by_sorted.
Qed.

End SortBy.

Lemma StronglySorted_firstn {A} (R : A -> A -> Prop) (n : nat) (l : list A) :
  StronglySorted R l -> StronglySorted R (firstn n l).
Proof.
  intros Hs. revert n. induction Hs as [|x l Hs IH Hx]; intros [|n]; simpl;
    try constructor.
  - apply IH.
  - rewrite Forall_forall in *. intros y Hy. apply Hx.
    eapply (In_nth_error) in Hy. destruct Hy as [k Hk].
    apply nth_error_In with (n := k).
    rewrite nth_error_firstn in Hk. destruct (k <? n)%nat; [exact Hk|discriminate].
Qed.

Lemma StronglySorted_map {A B} (R : A -> A -> Prop) (Q : B -> B -> Prop)
      (f : A -> B) (l : list A) :
  (forall a b, R a b -> Q (f a) (f b)) ->
  StronglySorted R l -> StronglySorted Q (map f l).
Proof.
  intros Hf. induction 1 as [|x l Hs IH Hx]; simpl; constructor; [exact IH|].
  rewrite Forall_map. eapply Forall_impl; [|exact Hx]. intros y. apply Hf.
Qed.

Lemma col_eqb_eq (a b : option Z) : col_eqb a b = true <-> a = b.
Proof. destruct a, b; simpl; rewrite ?Z.eqb_eq; intuition congruence. Qed.

Lemma col_leb_le (a b : option Z) :
  col_leb a b = true <-> col_ltb a b = true \/ a = b.
Proof. unfold col_leb. now rewrite orb_true_iff, col_eqb_eq. Qed.

Lemma col_total (a b : option Z) :
  col_ltb a b = true \/ a = b \/ col_ltb b a = true.
Proof.
  destruct a as [x|], b as [y|]; simpl; auto.
  destruct (Z.lt_trichotomy x y) as [H|[H|H]].
  - left. now apply Z.ltb_lt.
  - right; left. congruence.
  - right; right. now apply Z.ltb_lt.
Qed.

Lemma col_ltb_trans (a b c : option Z) :
  col_ltb a b = true -> col_ltb b c = true -> col_ltb a c = true.
Proof. destruct a, b, c; simpl; rewrite ?Z.ltb_lt; try congruence; lia. Qed.

(** The boolean order of the query, spelled out. *)
Lemma rank_leb_spec (a b : resultado) :
  rank_leb a b = true <->
  col_ltb (rj_puntuacion b) (rj_puntuacion a) = true
  \/ (rj_puntuacion a = rj_puntuacion b
      /\ (col_ltb (nivel_alcanzado b) (nivel_alcanzado a) = true
          \/ (nivel_alcanzado a = nivel_alcanzado b
              /\ (col_ltb (tiempo_jugado a) (tiempo_jugado b) = true
                  \/ tiempo_jugado a = tiempo_jugado b)))).
Proof.
  unfold rank_leb.
  rewrite !orb_true_iff, !andb_true_iff, !orb_true_iff, !andb_true_iff,
    !col_eqb_eq, col_leb_le.
  reflexivity.
Qed.

Lemma rank_leb_total (a b : resultado) :
  rank_leb a b = true \/ rank_leb b a = true.
Proof.
  rewrite !rank_leb_spec.
  destruct (col_total (rj_puntuacion a) (rj_puntuacion b)) as [H|[H|H]]; auto.
  destruct (col_total (nivel_alcanzado a) (nivel_alcanzado b)) as [H1|[H1|H1]];
    auto.
  destruct (col_total (tiempo_jugado a) (tiempo_jugado b)) as [H2|[H2|H2]];
    auto 10.
Qed.

Ltac by_column :=
  try (left; congruence || (eapply col_ltb_trans; eassumption));
  try (match goal with
       | H : _ = _ |- _ => rewrite H in *; left; assumption
       | H : _ = _ |- _ => rewrite <- H in *; left; assumption
       end).

Lemma rank_leb_trans (a b c : resultado) :
  rank_leb a b = true -> rank_leb b c = true -> rank_leb a c = true.
Proof.
  rewrite !rank_leb_spec.
  intros [H|(H & [H1|(H1 & [H2|H2])])] [K|(K & [K1|(K1 & [K2|K2])])];
    by_column; right; (split; [congruence|]);
    by_column; right; (split; [congruence|]);
    by_column; right; congruence.
Qed.

(** ** The leaderboard *)

Section Leaderboard.
Import Auth GameRoutes GameSpec Samples.

Lemma with_rank_nth (l : list entry) (index : Z) (k : nat) (e : entry) :
  nth_error l k = Some e ->
  nth_error (with_rank index l) k = Some (index + Z.of_nat k + 1, e).
Proof.
  revert index k. induction l as [|x l IH]; intros index [|k] H; simpl in *;
    try discriminate.
  - inversion H. f_equal. f_equal. lia.
  - rewrite (IH (index + 1) k H). f_equal. f_equal. lia.
Qed.

Lemma with_rank_length (l : list entry) (index : Z) :
  List.length (with_rank index l) = List.length l.
Proof.
  revert index. induction l as [|x l IH]; intros index; simpl;
    [reflexivity|now rewrite IH].
Qed.

Lemma ranked_rows_sorted (s : store) (g : string) :
  StronglySorted row_before (Queries.ranked_rows s g).
Proof.
  apply sort_by_sorted; [apply rank_leb_total | apply rank_leb_trans].
Qed.

Lemma row_before_entries (s : store) (a b : resultado) :
  row_before a b -> comes_before (entry_of s a) (entry_of s b).
Proof.
  unfold row_before, holds. rewrite rank_leb_spec. intros H. exact H.
Qed.

(** The response of the leaderboard for a limit the store accepts. *)
Lemma top_board (g : string) (q : js string) (s : store) :
  0 <= limit q ->
  top g q s =
  let rows := map (entry_of s)
                  (firstn (Z.to_nat (limit q)) (Queries.ranked_rows s g)) in
  mkRes 200 (Board g (List.length rows) (with_rank 0 rows)).
Proof.
  intros Hl. unfold top, getLeaderboard. simpl.
  unfold Queries.leaderboard.
  destruct (limit q <? 0) eqn:Hneg; [apply Z.ltb_lt in Hneg; lia|].
  reflexivity.
Qed.

(** C7. For a limit the store accepts, the leaderboard is answered with
    status 200; its lines come from the results of the game type, taken
    from the front of their ranking; every line comes before every later
    line in the order "higher score, then higher level, then shorter
    time"; and the line at position k (counted from 0) carries rank k + 1,
    ties included.  For the three results (10,2,50), (10,2,30), (15,1,99)
    the answer is (15,1,99) with rank 1, (10,2,30) with rank 2, (10,2,50)
    with rank 3; two results that tie in all three fields get ranks 1
    and 2. *)
Theorem leaderboard_is_ranked (g : string) (q : js string) (s : store) :
  0 <= limit q ->
  exists rows,
    top g q s = mkRes 200 (Board g (List.length rows) (with_rank 0 rows))
    /\ rows = map (entry_of s)
                  (firstn (Z.to_nat (limit q)) (Queries.ranked_rows s g))
    /\ Permutation
         (filter (fun r => (tipo_juego r =? g)%string) (resultados_juegos s))
         (Queries.ranked_rows s g)
    /\ StronglySorted comes_before rows
    /\ (forall k e, nth_error rows k = Some e ->
                    nth_error (with_rank 0 rows) k = Some (Z.of_nat k + 1, e))
    /\ lines (top "quiz" (just "10") three_results)
       = [(1, (Some 15, Some 1, Some 99));
          (2, (Some 10, Some 2, Some 30));
          (3, (Some 10, Some 2, Some 50))]
    /\ lines (top "quiz" (just "10") tied_results)
       = [(1, (Some 10, Some 2, Some 30));
          (2, (Some 10, Some 2, Some 30))].
Proof.
  intros Hl. eexists. split; [now apply top_board|].
  split; [reflexivity|].
  split; [apply sort_by_perm|].
  split.
  - eapply StronglySorted_map; [apply row_before_entries|].
    apply StronglySorted_firstn, ranked_rows_sorted.
  - split; [|split; reflexivity].
    intros k e He. now rewrite (with_rank_nth _ 0 k e He).
Qed.

Lemma leaderboard_is_ranked_witness :
  exists rows,
    top "quiz" (just "2") three_results
    = mkRes 200 (Board "quiz" (List.length rows) (with_rank 0 rows))
    /\ rows = map (entry_of three_results)
                  (firstn (Z.to_nat (limit (just "2")))
                          (Queries.ranked_rows three_results "quiz"))
    /\ Permutation
         (filter (fun r => (tipo_juego r =? "quiz")%string)
                 (resultados_juegos three_results))
         (Queries.ranked_rows three_results "quiz")
    /\ StronglySorted comes_before rows
    /\ (forall k e, nth_error rows k = Some e ->
                    nth_error (with_rank 0 rows) k = Some (Z.of_nat k + 1, e))
    /\ lines (top "quiz" (just "10") three_results)
       = [(1, (Some 15, Some 1, Some 99));
          (2, (Some 10, Some 2, Some 30));
          (3, (Some 10, Some 2, Some 50))]
    /\ lines (top "quiz" (just "10") tied_results)
       = [(1, (Some 10, Some 2, Some 30));
          (2, (Some 10, Some 2, Some 30))].
Proof.
  apply (leaderboard_is_ranked "quiz" (just "2") three_results).
  vm_compute. discriminate.
Defined.

(** *** The limit *)

Lemma or_default_bounds (n : option Z) :
  (forall z, n = Some z -> 0 <= z) -> 1 <= or_default n 10.
Proof.
  intros H. destruct n as [z|]; simpl; [|lia].
  specialize (H z eq_refl).
  destruct (z =? 0) eqn:Hz; [lia|]. apply Z.eqb_neq in Hz. lia.
Qed.

(** A string that does not open with white space, a sign or a decimal
    digit is not a number. *)
Lemma parseInt_non_numeric (c : ascii) (r : string) :
  is_space c = false -> c <> "-"%char -> c <> "+"%char ->
  (forall d, digit_of c = Some d -> 10 <= d) ->
  parseInt (just (String c r)) = None.
Proof.
  intros Hsp Hm Hp Hd. unfold parseInt. simpl. rewrite Hsp.
  assert (Hzero : c <> "0"%char).
  { intros ->. specialize (Hd 0 eq_refl). lia. }
  assert (Hrest : read_digits 10 (String c r) None = None).
  { simpl. destruct (digit_of c) as [d|] eqn:Hc; [|reflexivity].
    specialize (Hd d eq_refl).
    destruct (d <? 10) eqn:Hlt; [apply Z.ltb_lt in Hlt; lia|reflexivity]. }
  destruct c as [[] [] [] [] [] [] [] []]; try congruence;
    simpl; simpl in Hrest; now rewrite ?Hrest.
Qed.

(** C6, for the limits that do not parse to a negative number.  The
    effective limit lies between 1 and 100: it is 10 when the argument is
    missing, does not start as a number or is 0; it is 100 when the
    argument is above 100, and the argument itself otherwise; and the
    leaderboard then has at most that many lines, at most 100 for a limit
    of 500. *)
Theorem effective_limit (q : js string) (g : string) (s : store) :
  (forall n, parseInt q = Some n -> 0 <= n) ->
  1 <= limit q <= 100
  /\ (parseInt q = None -> limit q = 10)
  /\ (parseInt q = Some 0 -> limit q = 10)
  /\ (forall n, parseInt q = Some n -> 100 < n -> limit q = 100)
  /\ (forall n, parseInt q = Some n -> 1 <= n <= 100 -> limit q = n)
  /\ (forall c r, is_space c = false -> c <> "-"%char -> c <> "+"%char ->
                  (forall d, digit_of c = Some d -> 10 <= d) ->
                  limit (just (String c r)) = 10)
  /\ limit undefined = 10
  /\ limit (just "abc") = 10
  /\ limit (just "0") = 10
  /\ limit (just "500") = 100
  /\ status (top g q s) = 200
  /\ (List.length (lines (top g q s)) <= Z.to_nat (limit q))%nat
  /\ (List.length (lines (top g (just "500") s)) <= 100)%nat.
Proof.
  intros Hn.
  assert (Hb : 1 <= limit q <= 100).
  { unfold limit. pose proof (or_default_bounds (parseInt q) Hn). lia. }
  assert (Hlen : forall q', 0 <= limit q' ->
            (List.length (lines (top g q' s)) <= Z.to_nat (limit q'))%nat).
  { intros q' Hq'. rewrite (top_board g q' s Hq'). unfold lines; simpl.
    rewrite !length_map, with_rank_length, length_map.
    apply firstn_le_length. }
  split; [exact Hb|].
  split; [intros H; unfold limit; now rewrite H|].
  split; [intros H; unfold limit; now rewrite H|].
  split.
  { intros n H Hbig. unfold limit. rewrite H. simpl.
    destruct (n =? 0) eqn:Hz; [apply Z.eqb_eq in Hz; lia|lia]. }
  split.
  { intros n H Hin. unfold limit. rewrite H. simpl.
    destruct (n =? 0) eqn:Hz; [apply Z.eqb_eq in Hz; lia|lia]. }
  split.
  { intros c r Hsp Hm Hp Hd. unfold limit.
    now rewrite (parseInt_non_numeric c r Hsp Hm Hp Hd). }
  repeat (split; [reflexivity|]).
  split; [rewrite top_board by lia; reflexivity|].
  split; [apply Hlen; lia|].
  apply (Hlen (just "500")). vm_compute. discriminate.
Qed.

Lemma effective_limit_witness :
  1 <= limit (just "250") <= 100
  /\ (parseInt (just "250") = None -> limit (just "250") = 10)
  /\ (parseInt (just "250") = Some 0 -> limit (just "250") = 10)
  /\ (forall n, parseInt (just "250") = Some n -> 100 < n -> limit (just "250") = 100)
  /\ (forall n, parseInt (just "250") = Some n -> 1 <= n <= 100 -> limit (just "250") = n)
  /\ (forall c r, is_space c = false -> c <> "-"%char -> c <> "+"%char ->
                  (forall d, digit_of c = Some d -> 10 <= d) ->
                  limit (just (String c r)) = 10)
  /\ limit undefined = 10
  /\ limit (just "abc") = 10
  /\ limit (just "0") = 10
  /\ limit (just "500") = 100
  /\ status (top "quiz" (just "250") three_results) = 200
  /\ (List.length (lines (top "quiz" (just "250") three_results))
      <= Z.to_nat (limit (just "250")))%nat
  /\ (List.length (lines (top "quiz" (just "500") three_results)) <= 100)%nat.
Proof.
  apply (effective_limit (just "250") "quiz" three_results).
  intros n H. vm_compute in H. inversion H. lia.
Defined.

(** C6 as stated fails for a negative limit: ["-5"] parses to -5, which is
    truthy and below 100, so the effective limit is -5; the store refuses
    it and the request ends in the 500 of the [catch] block. *)
Lemma negative_limit_is_kept :
  limit (just "-5") = -5
  /\ ~ (1 <= limit (just "-5") <= 100)
  /\ top "quiz" (just "-5") three_results = internal_error.
Proof.
  split; [reflexivity|]. split; [vm_compute; intros [H _]; now apply H|].
  reflexivity.
Qed.

End Leaderboard.

(** ** Game results *)

Section GameResults.
Import Auth GameRoutes GameSpec Samples.

(** A body that fails a check is answered 400 and nothing is stored. *)
Lemma record_rejects (req : request) (s : store) :
  truthy_str (gameType (req_body req)) = false
  \/ lt (score (req_body req)) 0 = true
  \/ lt (levelReached (req_body req)) 1 = true
  \/ lt (timePlayed (req_body req)) 0 = true ->
  status (fst (record req s)) = 400 /\ snd (record req s) = s.
Proof.
  intros H. unfold record, recordGameResult.
  destruct (negb (truthy_str (gameType (req_body req)))
            || is_undefined (score (req_body req))
            || negb (truthy_num (levelReached (req_body req)))
            || negb (truthy_num (timePlayed (req_body req)))) eqn:Hmiss;
    [simpl; auto|].
  destruct (lt (score (req_body req)) 0 || lt (levelReached (req_body req)) 1
            || lt (timePlayed (req_body req)) 0) eqn:Hbad; [simpl; auto|].
  exfalso.
  apply orb_false_iff in Hbad. destruct Hbad as [Hbad Ht].
  apply orb_false_iff in Hbad. destruct Hbad as [Hs Hl].
  apply orb_false_iff in Hmiss. destruct Hmiss as [Hmiss _].
  apply orb_false_iff in Hmiss. destruct Hmiss as [Hmiss _].
  apply orb_false_iff in Hmiss. destruct Hmiss as [Hg _].
  apply negb_false_iff in Hg.
  destruct H as [H|[H|[H|H]]]; congruence.
Qed.

(** What is stored when the body passes the checks. *)
Lemma record_accepted (req : request) (s : store) :
  accepted (req_body req) ->
  record req s =
  run internal_error
      (insertId <- insert_resultado
         (mkGame (if is_guest (req_user req) then null else userId (req_user req))
                 (if is_guest (req_user req) then guestId (req_user req) else null)
                 (or_str (gameType (req_body req)) "")
                 (score (req_body req)) (levelReached (req_body req))
                 (timePlayed (req_body req)) (metadata (req_body req))
                 (now req)) ;;
       Ret (mkRes 201 (Saved insertId (score (req_body req))
                             (levelReached (req_body req)))))
      s.
Proof.
  intros (Hg & Hs & Hl & Ht & Hs0 & Hl1 & Ht0).
  unfold record, recordGameResult.
  now rewrite Hg, Hs, Hl, Ht, Hs0, Hl1, Ht0.
Qed.

Lemma truthy_bound (v : js Z) :
  truthy_num v = true -> exists z, v = just z /\ bind v = Ok (Some z).
Proof. destruct v as [| |z]; simpl; try discriminate. eauto. Qed.

Lemma record_not_accepted (req : request) (s : store) :
  ~ accepted (req_body req) ->
  status (fst (record req s)) = 400 /\ snd (record req s) = s.
Proof.
  intros Hnot. unfold record, recordGameResult.
  destruct (negb (truthy_str (gameType (req_body req)))
            || is_undefined (score (req_body req))
            || negb (truthy_num (levelReached (req_body req)))
            || negb (truthy_num (timePlayed (req_body req)))) eqn:Hmiss;
    [simpl; auto|].
  destruct (lt (score (req_body req)) 0 || lt (levelReached (req_body req)) 1
            || lt (timePlayed (req_body req)) 0) eqn:Hbad; [simpl; auto|].
  exfalso. apply Hnot.
  apply orb_false_iff in Hbad. destruct Hbad as [Hbad Ht].
  apply orb_false_iff in Hbad. destruct Hbad as [Hs Hl].
  apply orb_false_iff in Hmiss. destruct Hmiss as [Hmiss Htt].
  apply orb_false_iff in Hmiss. destruct Hmiss as [Hmiss Hlt].
  apply orb_false_iff in Hmiss. destruct Hmiss as [Hg Hu].
  apply negb_false_iff in Hg, Htt, Hlt.
  repeat split; assumption.
Qed.

(** A result with a game type, a score of at least 0, a level of at
    least 1 and a time above 0, from a caller with the id of its kind, is
    stored as one new row and answered 201. *)
Lemma record_valid_input_is_stored
      (req : request) (s : store) (g : string) (sc l t i : Z) :
  gameType (req_body req) = just g -> g <> "" ->
  score (req_body req) = just sc -> 0 <= sc ->
  levelReached (req_body req) = just l -> 1 <= l ->
  timePlayed (req_body req) = just t -> 0 < t ->
  filing_id (req_user req) = just i ->
  status (fst (record req s)) = 201
  /\ exists row,
      resultados_juegos (snd (record req s)) = (resultados_juegos s ++ [row])%list
      /\ tipo_juego row = g
      /\ rj_puntuacion row = Some sc
      /\ nivel_alcanzado row = Some l
      /\ tiempo_jugado row = Some t.
Proof.
  intros Hg Hne Hs Hsc Hl Hl1 Ht Ht0 Hi.
  assert (Hacc : accepted (req_body req)).
  { unfold accepted. rewrite Hg, Hs, Hl, Ht. unfold lt; simpl.
    apply String.eqb_neq in Hne. rewrite Hne.
    repeat split; try reflexivity;
      try (apply negb_true_iff, Z.eqb_neq; lia);
      apply Z.ltb_ge; lia. }
  rewrite (record_accepted req s Hacc). simpl.
  unfold Store.insert_resultado; simpl. rewrite Hs, Hl, Ht. simpl.
  unfold filing_id in Hi.
  destruct (is_guest (req_user req)); rewrite Hi; simpl;
    (split; [reflexivity|]); eexists; (split; [reflexivity|]); simpl;
    rewrite Hg; simpl; apply String.eqb_neq in Hne; rewrite Hne;
    repeat split; reflexivity.
Qed.

(** Whatever else the body holds, a time of 0 fails the presence check. *)
Lemma zero_time_fails_presence_check (req : request) (s : store) :
  timePlayed (req_body req) = just 0 ->
  record req s = (mkRes 400 (Error "Datos incompletos"), s).
Proof.
  intros Ht. unfold record, recordGameResult. rewrite Ht. simpl.
  now rewrite !orb_true_r.
Qed.

(** C2 at a time of 0.  A result with a game type, a score of 10, level 1
    and 0 seconds played is answered 400 "Datos incompletos" and nothing
    is stored, while the same result with 1 second is stored and answered
    201, and so is a result with a score of 0. *)
Theorem zero_time_is_rejected_as_incomplete :
  record (game_request ada (just 10) (just 1) (just 0)) three_results
  = (mkRes 400 (Error "Datos incompletos"), three_results)
  /\ status (fst (record (game_request ada (just 10) (just 1) (just 1)) three_results))
     = 201
  /\ status (fst (record (game_request ada (just 0) (just 1) (just 1)) three_results))
     = 201
  /\ List.length
       (resultados_juegos
          (snd (record (game_request ada (just 0) (just 1) (just 1)) three_results)))
     = 4%nat.
Proof. repeat split; reflexivity. Qed.

(** C5, for a caller whose id of its kind (the guest id of a guest, the
    user id of anyone else) is not JSON null.  A call stores nothing, or
    it appends one row whose owner columns hold exactly one id: for a
    guest the guest session id, with the user id NULL; for any other
    caller the user id, with the guest session id NULL.  A caller without
    the id of its kind stores nothing; a caller with it, sending a body
    that passes the checks, is answered 201. *)
Theorem stored_result_has_one_owner (req : request) (s : store) :
  filing_id (req_user req) <> null ->
  ((resultados_juegos (snd (record req s)) = resultados_juegos s
    /\ status (fst (record req s)) <> 201)
   \/ exists row,
       resultados_juegos (snd (record req s)) = (resultados_juegos s ++ [row])%list
       /\ status (fst (record req s)) = 201
       /\ one_owner row
       /\ (is_guest (req_user req) = true ->
           rj_id_usuario row = None
           /\ exists i, guestId (req_user req) = just i
                        /\ rj_id_sesion_invitado row = Some i)
       /\ (is_guest (req_user req) = false ->
           rj_id_sesion_invitado row = None
           /\ exists i, userId (req_user req) = just i
                        /\ rj_id_usuario row = Some i))
  /\ (filing_id (req_user req) = undefined ->
      resultados_juegos (snd (record req s)) = resultados_juegos s)
  /\ (accepted (req_body req) ->
      (exists i, filing_id (req_user req) = just i) ->
      status (fst (record req s)) = 201).
Proof.
  intros Hid.
  assert (Hrej : ~ accepted (req_body req) ->
                 resultados_juegos (snd (record req s)) = resultados_juegos s
                 /\ status (fst (record req s)) <> 201).
  { intros Hnot. destruct (record_not_accepted req s Hnot) as [Hst Hs].
    rewrite Hs, Hst. split; [reflexivity|discriminate]. }
  assert (Hdec : accepted (req_body req) \/ ~ accepted (req_body req)).
  { unfold accepted.
    destruct (truthy_str (gameType (req_body req))),
             (is_undefined (score (req_body req))),
             (truthy_num (levelReached (req_body req))),
             (truthy_num (timePlayed (req_body req))),
             (lt (score (req_body req)) 0),
             (lt (levelReached (req_body req)) 1),
             (lt (timePlayed (req_body req)) 0);
      try (left; repeat split; reflexivity);
      right; intros (H1 & H2 & H3 & H4 & H5 & H6 & H7); discriminate. }
  unfold filing_id in Hid |- *.
  destruct Hdec as [Hacc | Hnot].
  2: { split; [left; now apply Hrej|].
       split; [intros _; now apply Hrej | intros Hacc; contradiction]. }
  rewrite (record_accepted req s Hacc).
  destruct Hacc as (_ & Hs & Hl & Ht & _).
  destruct (truthy_bound _ Hl) as (l & Hl' & Hbl).
  destruct (truthy_bound _ Ht) as (t & Ht' & Hbt).
  assert (Hbs : exists p, bind (score (req_body req)) = Ok p).
  { destruct (score (req_body req)); simpl in *; try discriminate; eauto. }
  destruct Hbs as [p Hbs].
  simpl. unfold Store.insert_resultado; simpl.
  rewrite Hbs, Hbl, Hbt.
  destruct (is_guest (req_user req)) eqn:Hguest; simpl.
  - destruct (guestId (req_user req)) as [| |i] eqn:Hi; simpl; try congruence.
    + split; [left; split; [reflexivity|discriminate]|].
      split; [reflexivity|]. intros _ [i Hi']. discriminate.
    + split.
      * right. eexists. split; [reflexivity|]. split; [reflexivity|]. simpl.
        split; [right; split; [reflexivity|discriminate]|].
        split; [intros _; split; [reflexivity|eauto] | discriminate].
      * split; [discriminate | reflexivity].
  - destruct (userId (req_user req)) as [| |i] eqn:Hi; simpl; try congruence.
    + split; [left; split; [reflexivity|discriminate]|].
      split; [reflexivity|]. intros _ [i Hi']. discriminate.
    + split.
      * right. eexists. split; [reflexivity|]. split; [reflexivity|]. simpl.
        split; [left; split; [discriminate|reflexivity]|].
        split; [discriminate | intros _; split; [reflexivity|eauto]].
      * split; [discriminate | reflexivity].
Qed.

Lemma stored_result_has_one_owner_witness :
  ((resultados_juegos
      (snd (record (game_request guest_bob (just 10) (just 2) (just 30)) three_results))
    = resultados_juegos three_results
    /\ status (fst (record (game_request guest_bob (just 10) (just 2) (just 30))
                           three_results)) <> 201)
   \/ exists row,
       resultados_juegos
         (snd (record (game_request guest_bob (just 10) (just 2) (just 30)) three_results))
       = (resultados_juegos three_results ++ [row])%list
       /\ status (fst (record (game_request guest_bob (just 10) (just 2) (just 30))
                              three_results)) = 201
       /\ one_owner row
       /\ (is_guest guest_bob = true ->
           rj_id_usuario row = None
           /\ exists i, guestId guest_bob = just i
                        /\ rj_id_sesion_invitado row = Some i)
       /\ (is_guest guest_bob = false ->
           rj_id_sesion_invitado row = None
           /\ exists i, userId guest_bob = just i
                        /\ rj_id_usuario row = Some i))
  /\ (filing_id guest_bob = undefined ->
      resultados_juegos
        (snd (record (game_request guest_bob (just 10) (just 2) (just 30)) three_results))
      = resultados_juegos three_results)
  /\ (accepted (GameRoutes.req_body (game_request guest_bob (just 10) (just 2) (just 30))) ->
      (exists i, filing_id guest_bob = just i) ->
      status (fst (record (game_request guest_bob (just 10) (just 2) (just 30))
                          three_results)) = 201).
Proof.
  apply (stored_result_has_one_owner
           (game_request guest_bob (just 10) (just 2) (just 30)) three_results);
    vm_compute; discriminate.
Defined.

(** C5 as stated fails for a caller whose id is null: nothing rejects
    the result of a guest whose token carries [guestId: null].  It is
    answered 201 and stored with both owner columns NULL. *)
Lemma null_id_is_stored_without_owner :
  is_guest null_guest = true
  /\ filing_id null_guest = null
  /\ accepted (GameRoutes.req_body (game_request null_guest (just 10) (just 2) (just 30)))
  /\ status (fst (record (game_request null_guest (just 10) (just 2) (just 30))
                         three_results)) = 201
  /\ exists row,
      resultados_juegos
        (snd (record (game_request null_guest (just 10) (just 2) (just 30))
                     three_results))
      = (resultados_juegos three_results ++ [row])%list
      /\ rj_id_usuario row = None
      /\ rj_id_sesion_invitado row = None
      /\ ~ one_owner row.
Proof.
  split; [reflexivity|]. split; [reflexivity|].
  split; [repeat split; reflexivity|]. split; [reflexivity|].
  eexists. split; [reflexivity|]. simpl.
  split; [reflexivity|]. split; [reflexivity|].
  intros [[H _] | [_ H]]; now apply H.
Qed.

(** The identities of issued tokens have no null id, and the id of their
    kind is the one the token was issued with. *)
Lemma issued_identity (c : claims) :
  (exists u e t, c = registered_claims u e t)
  \/ (exists g i n, c = guest_claims g i n) ->
  userId (normalise c) <> null /\ guestId (normalise c) <> null.
Proof.
  intros [(u & e & t & ->) | (g & i & n & ->)]; simpl; unfold or_else; simpl.
  - destruct (u =? 0); simpl; split; discriminate.
  - split; discriminate.
Qed.

Lemma guest_filing_id (g : Z) (i n : string) :
  is_guest (normalise (guest_claims g i n)) = true
  /\ filing_id (normalise (guest_claims g i n)) = just g.
Proof. split; reflexivity. Qed.

Lemma registered_filing_id (u : Z) (e t : string) :
  u <> 0 -> t <> "guest" ->
  is_guest (normalise (registered_claims u e t)) = false
  /\ filing_id (normalise (registered_claims u e t)) = just u.
Proof.
  intros Hu Ht.
  assert (Hng : is_guest (normalise (registered_claims u e t)) = false).
  { unfold is_guest; simpl. destruct (t =? "")%string eqn:He; [reflexivity|].
    apply String.eqb_neq. exact Ht. }
  split; [exact Hng|].
  unfold filing_id. rewrite Hng. simpl. unfold or_else; simpl.
  apply Z.eqb_neq in Hu. now rewrite Hu.
Qed.

End GameResults.

(** ** Token verification *)

Section TokenVerification.
Import Auth Samples.

Variable jwt_verify : string -> string -> verified.
Variable JWT_SECRET : js string.

(** C3, as the middleware answers.  Without a token the answer is 401
    "Token de acceso requerido".  With a token, any error of the
    verification (a bad signature, a bad shape, an expired token) gets
    the one answer 403 "Token inválido".  A verified token lets the
    request through with the normalised user. *)
Theorem authenticateToken_answers (authHeader : js string) :
  (truthy_str (token_of authHeader) = false ->
   authenticateToken jwt_verify JWT_SECRET authHeader
   = Answered (mkRes 401 (Error "Token de acceso requerido")))
  /\ (forall t err,
        token_of authHeader = just t -> t <> "" ->
        jwt_verify t (or_str JWT_SECRET "maxwavex_secret_key") = Failed err ->
        authenticateToken jwt_verify JWT_SECRET authHeader
        = Answered (mkRes 403 (Error "Token inválido")))
  /\ (forall t decoded,
        token_of authHeader = just t -> t <> "" ->
        jwt_verify t (or_str JWT_SECRET "maxwavex_secret_key") = Decoded decoded ->
        authenticateToken jwt_verify JWT_SECRET authHeader
        = Next (normalise decoded)).
Proof.
  unfold authenticateToken.
  split; [intros H; now rewrite H|].
  split; intros t x Ht Hne Hv; rewrite Ht; simpl;
    apply String.eqb_neq in Hne; rewrite Hne; simpl; now rewrite Hv.
Qed.

End TokenVerification.

Section TokenExamples.
Import Auth Samples.

Lemma authenticateToken_answers_witness :
  authenticateToken sample_verify undefined (just "Bearer")
  = Answered (mkRes 401 (Error "Token de acceso requerido"))
  /\ authenticateToken sample_verify undefined (just "Bearer expired")
     = Answered (mkRes 403 (Error "Token inválido"))
  /\ authenticateToken sample_verify undefined (just "Bearer ada")
     = Next ada.
Proof.
  split; [|split].
  - apply (authenticateToken_answers sample_verify undefined (just "Bearer")).
    reflexivity.
  - apply (proj1 (proj2 (authenticateToken_answers sample_verify undefined
                           (just "Bearer expired")))
             "expired" TokenExpiredError);
      [reflexivity | discriminate | reflexivity].
  - apply (proj2 (proj2 (authenticateToken_answers sample_verify undefined
                           (just "Bearer ada")))
             "ada" (registered_claims 7 "a@x.com" "student"));
      [reflexivity | discriminate | reflexivity].
Defined.

(** C3 as stated fails for an expired token: the middleware answers it
    exactly as it answers a token with a bad signature, with 403 "Token
    inválido". *)
Lemma expired_token_is_answered_as_invalid :
  sample_verify "expired" "maxwavex_secret_key" = Failed TokenExpiredError
  /\ sample_verify "forged" "maxwavex_secret_key" = Failed JsonWebTokenError
  /\ authenticateToken sample_verify undefined (just "Bearer expired")
     = Answered (mkRes 403 (Error "Token inválido"))
  /\ authenticateToken sample_verify undefined (just "Bearer expired")
     = authenticateToken sample_verify undefined (just "Bearer forged")
  /\ authenticateToken sample_verify undefined undefined
     = Answered (mkRes 401 (Error "Token de acceso requerido")).
Proof. repeat split; reflexivity. Qed.

End TokenExamples.

(* ================================================================== *)
(** * Further properties of the handlers *)

(** ** Rows that stay *)

Section ProgressRows.
Import Auth ProgressRoutes ProgressSpec ProgressFrame Samples.






End ProgressRows.


(** ** Refusals and repeated writes *)

Section ProgressAnswers.
Import Auth ProgressRoutes ProgressSpec ProgressFrame Samples MoreSamples.



(** X6. A registered caller whose percentage passes its check: a negative
    [time_spent] is answered 400 with the message about time, and with
    the time in order a negative [score] is answered 400 with the message
    about the score; in both cases nothing is written, whether the module
    exists or not. *)
Theorem negative_time_or_score_is_refused (req : request) (s : store) :
  is_guest (req_user req) = false ->
  lt (completion_percentage (req_body req)) 0 = false ->
  gt (completion_percentage (req_body req)) 100 = false ->
  (lt (time_spent (req_body req)) 0 = true ->
   serve Upsert req s
   = (bad_request "El tiempo gastado no puede ser negativo", s))
  /\ (lt (time_spent (req_body req)) 0 = false ->
      lt (score (req_body req)) 0 = true ->
      serve Upsert req s
      = (bad_request "La puntuación no puede ser negativa", s)).
Proof.
  intros Hg H1 H2. unfold serve; simpl handler. unfold upsertProgress.
  rewrite Hg, H1, H2, andb_false_r. simpl.
  split.
  - intros Ht. rewrite Ht.
    destruct (time_spent (req_body req)); simpl in *; try discriminate.
    reflexivity.
  - intros Ht Hs. rewrite Ht, Hs, andb_false_r.
    destruct (score (req_body req)); simpl in *; try discriminate.
    reflexivity.
Qed.

Lemma negative_time_or_score_is_refused_witness :
  serve Upsert (ada_request (just 50) (just (-1)) (just 3)) one_row
  = (bad_request "El tiempo gastado no puede ser negativo", one_row)
  /\ serve Upsert (ada_request (just 50) (just 10) (just (-3))) one_row
     = (bad_request "La puntuación no puede ser negativa", one_row).
Proof.
  split.
  - apply (negative_time_or_score_is_refused
             (ada_request (just 50) (just (-1)) (just 3)) one_row);
      reflexivity.
  - apply (negative_time_or_score_is_refused
             (ada_request (just 50) (just 10) (just (-3))) one_row);
      reflexivity.
Defined.

Lemma filter_none {A} (f : A -> bool) (l : list A) :
  Forall (fun x => f x = false) l -> filter f l = [].
Proof.
  induction 1 as [|x l Hx _ IH]; simpl; [reflexivity|]. now rewrite Hx.
Qed.



End ProgressAnswers.


Section ProgressReadBack.
Import Auth ProgressRoutes ProgressSpec ProgressFrame Samples MoreSamples.

Lemma by_indice_orden_total (a b : progreso * modulo) :
  Queries.by_indice_orden a b = true \/ Queries.by_indice_orden b a = true.
Proof.
  unfold Queries.by_indice_orden.
  destruct (Z.le_gt_cases (indice_orden (snd a)) (indice_orden (snd b)));
    [left | right]; apply Z.leb_le; lia.
Qed.

Lemma by_indice_orden_trans (a b c : progreso * modulo) :
  Queries.by_indice_orden a b = true -> Queries.by_indice_orden b c = true ->
  Queries.by_indice_orden a c = true.
Proof. unfold Queries.by_indice_orden. rewrite !Z.leb_le. lia. Qed.

Lemma join_modulos_in (s : store) (rows : list progreso) (r : progreso) (x : modulo) :
  In (r, x) (join_modulos s rows) <->
  In r rows /\ In x (modulos s) /\ m_id_modulo x = id_modulo r.
Proof.
  unfold join_modulos. rewrite in_flat_map. split.
  - intros (r' & Hr' & Hin). apply in_map_iff in Hin.
    destruct Hin as (x' & Heq & Hx'). inversion Heq; subst.
    apply filter_In in Hx'. destruct Hx' as [Hx' Hid].
    apply Z.eqb_eq in Hid. auto.
  - intros (Hr & Hx & Hid). exists r. split; [exact Hr|].
    apply in_map. apply filter_In. split; [exact Hx|]. now apply Z.eqb_eq.
Qed.

(** X11. The list of a registered user's progress shows exactly the
    caller's rows whose module exists, each with its module, in the order
    of the modules' [indice_orden]; it writes nothing. *)
Theorem list_shows_own_rows_in_order (req : request) (s : store) (u : Z) :
  is_guest (req_user req) = false ->
  userId (req_user req) = just u ->
  exists rows,
    serve List req s = (mkRes 200 (Rows rows), s)
    /\ (forall r x, In (r, x) rows <->
                    In r (progreso_usuarios s) /\ id_usuario r = Some u
                    /\ In x (modulos s) /\ m_id_modulo x = id_modulo r)
    /\ StronglySorted
         (fun a b => indice_orden (snd a) <= indice_orden (snd b)) rows.
Proof.
  intros Hg Hu.
  exists (Queries.user_rows s (Some u)). split; [|split].
  - unfold serve; simpl handler. unfold listProgress. rewrite Hg. simpl.
    now rewrite Hu.
  - intros r x. unfold Queries.user_rows.
    split.
    + intros Hin.
      eapply Permutation_in in Hin; [|apply Permutation_sym, sort_by_perm].
      apply join_modulos_in in Hin. destruct Hin as (Hr & Hx & Hid).
      apply filter_In in Hr. destruct Hr as [Hr Ho].
      apply option_Z_eqb_eq in Ho. auto.
    + intros (Hr & Ho & Hx & Hid).
      eapply Permutation_in; [apply sort_by_perm|].
      apply join_modulos_in. split; [|auto].
      apply filter_In. split; [exact Hr|]. now apply option_Z_eqb_eq.
  - unfold Queries.user_rows.
    rewrite <- (map_id (sort_by Queries.by_indice_orden _)).
    eapply StronglySorted_map;
      [|apply sort_by_sorted;
        [apply by_indice_orden_total | apply by_indice_orden_trans]].
    intros a b H. apply Z.leb_le. exact H.
Qed.

Lemma list_shows_own_rows_in_order_witness :
  exists rows,
    serve List (eve_request null null null) two_owners
    = (mkRes 200 (Rows rows), two_owners)
    /\ (forall r x, In (r, x) rows <->
                    In r (progreso_usuarios two_owners) /\ id_usuario r = Some 8
                    /\ In x (modulos two_owners) /\ m_id_modulo x = id_modulo r)
    /\ StronglySorted
         (fun a b => indice_orden (snd a) <= indice_orden (snd b)) rows.
Proof.
  apply (list_shows_own_rows_in_order (eve_request null null null) two_owners 8);
    reflexivity.
Defined.

End ProgressReadBack.

(* ================================================================== *)
(** ** Game results: what is kept and what is read back *)

Section GameFrame.
Import Auth GameRoutes GameSpec GameReads Samples MoreSamples.

(** X13. Recording a game result touches nothing but the results: the
    modules, the users, the guest sessions and the progress rows are as
    they were, and at most one result is added, under the next key. *)
Theorem record_touches_only_results (req : request) (s : store) :
  let s1 := snd (record req s) in
  modulos s1 = modulos s
  /\ usuarios s1 = usuarios s
  /\ sesiones_invitados s1 = sesiones_invitados s
  /\ progreso_usuarios s1 = progreso_usuarios s
  /\ next_id_progreso s1 = next_id_progreso s
  /\ (s1 = s
      \/ exists row,
          resultados_juegos s1 = (resultados_juegos s ++ [row])%list
          /\ id_resultado row = next_id_resultado s
          /\ next_id_resultado s1 = next_id_resultado s + 1
          /\ fecha_juego row = now req).
Proof.
  unfold record, recordGameResult.
  destruct (negb (truthy_str (gameType (req_body req)))
            || is_undefined (score (req_body req))
            || negb (truthy_num (levelReached (req_body req)))
            || negb (truthy_num (timePlayed (req_body req))));
    [simpl; repeat split; auto|].
  destruct (lt (score (req_body req)) 0 || lt (levelReached (req_body req)) 1
            || lt (timePlayed (req_body req)) 0);
    [simpl; repeat split; auto|].
  simpl. unfold Store.insert_resultado. simpl.
  destruct (bind (if is_guest (req_user req) then null else userId (req_user req)));
    simpl; [|repeat split; auto].
  destruct (bind (if is_guest (req_user req) then guestId (req_user req) else null));
    simpl; [|repeat split; auto].
  destruct (bind (score (req_body req))); simpl; [|repeat split; auto].
  destruct (bind (levelReached (req_body req))); simpl; [|repeat split; auto].
  destruct (bind (timePlayed (req_body req))); simpl; [|repeat split; auto].
  repeat split; try reflexivity. right. eexists. repeat split; reflexivity.
Qed.

End GameFrame.

Section LeaderboardReads.
Import Auth GameRoutes GameSpec GameReads Samples MoreSamples.

Lemma ranked_rows_length (s : store) (g : string) :
  List.length (Queries.ranked_rows s g) = List.length (of_game s g).
Proof.
  unfold Queries.ranked_rows, of_game.
  symmetry. apply Permutation_length, sort_by_perm.
Qed.

Lemma firstn_In {A} (n : nat) (l : list A) (x : A) :
  In x (firstn n l) -> In x l.
Proof.
  intros H. rewrite <- (firstn_skipn n l). apply in_or_app. now left.
Qed.

Lemma with_rank_In (l : list entry) (index k : Z) (e : entry) :
  In (k, e) (with_rank index l) -> In e l.
Proof.
  revert index. induction l as [|x l IH]; simpl; intros index H; [contradiction|].
  destruct H as [H|H]; [inversion H; now left | right; eauto].
Qed.

(** X14. For a limit the store accepts, the leaderboard holds as many
    lines as the smaller of the limit and the number of results stored
    for the game type, [totalEntries] is that number, every line is the
    line of a result of that game type, and the store is left as it
    was. *)
Theorem leaderboard_size (g : string) (q : js string) (s : store) :
  0 <= limit q ->
  let n := Nat.min (Z.to_nat (limit q)) (List.length (of_game s g)) in
  List.length (board (top g q s)) = n
  /\ total_entries (top g q s) = n
  /\ (forall k e, In (k, e) (board (top g q s)) ->
                  exists r, In r (of_game s g) /\ e = entry_of s r)
  /\ snd (run internal_error (getLeaderboard g q) s) = s.
Proof.
  intros Hl n.
  rewrite (top_board g q s Hl). unfold board, total_entries. simpl.
  rewrite with_rank_length, length_map, length_firstn, ranked_rows_length.
  fold n. repeat split.
  - intros k e Hin. apply with_rank_In in Hin.
    apply in_map_iff in Hin. destruct Hin as (r & Hr & Hin).
    exists r. split; [|now symmetry].
    apply firstn_In in Hin. unfold of_game.
    eapply Permutation_in; [apply Permutation_sym, sort_by_perm|exact Hin].
  - unfold getLeaderboard. simpl. unfold Queries.leaderboard.
    now destruct (limit q <? 0).
Qed.

Lemma leaderboard_size_witness :
  let n := Nat.min (Z.to_nat (limit (just "2")))
                   (List.length (of_game three_results "quiz")) in
  List.length (board (top "quiz" (just "2") three_results)) = n
  /\ total_entries (top "quiz" (just "2") three_results) = n
  /\ (forall k e, In (k, e) (board (top "quiz" (just "2") three_results)) ->
                  exists r, In r (of_game three_results "quiz")
                            /\ e = entry_of three_results r)
  /\ snd (run internal_error (getLeaderboard "quiz" (just "2")) three_results)
     = three_results.
Proof.
  apply (leaderboard_size "quiz" (just "2") three_results).
  vm_compute. discriminate.
Defined.

End LeaderboardReads.

Section RecordedResults.
Import Auth GameRoutes GameSpec GameReads Samples MoreSamples.

(** The store a valid result leaves. *)
Lemma record_valid_row
      (req : request) (s : store) (g : string) (sc l t i : Z) :
  gameType (req_body req) = just g -> g <> "" ->
  score (req_body req) = just sc -> 0 <= sc ->
  levelReached (req_body req) = just l -> 1 <= l ->
  timePlayed (req_body req) = just t -> 0 < t ->
  filing_id (req_user req) = just i ->
  snd (record req s)
  = with_resultados s
      (resultados_juegos s ++
         [mkResultado (next_id_resultado s)
            (if is_guest (req_user req) then None else Some i)
            (if is_guest (req_user req) then Some i else None)
            g (Some sc) (Some l) (Some t) (metadata (req_body req)) (now req)])
      (next_id_resultado s + 1).
Proof.
  intros Hg Hne Hs Hsc Hl Hl1 Ht Ht0 Hi.
  assert (Hacc : accepted (req_body req)).
  { unfold accepted. rewrite Hg, Hs, Hl, Ht. unfold lt; simpl.
    apply String.eqb_neq in Hne. rewrite Hne.
    repeat split; try reflexivity;
      try (apply negb_true_iff, Z.eqb_neq; lia);
      apply Z.ltb_ge; lia. }
  rewrite (record_accepted req s Hacc). simpl.
  unfold Store.insert_resultado; simpl. rewrite Hs, Hl, Ht. simpl.
  unfold filing_id in Hi. apply String.eqb_neq in Hne.
  destruct (is_guest (req_user req)); rewrite Hi; simpl; rewrite Hg; simpl;
    rewrite Hne; reflexivity.
Qed.

Lemma In_with_rank (l : list entry) (e : entry) :
  In e l -> exists k, In (k, e) (with_rank 0 l).
Proof.
  intros Hin. apply In_nth_error in Hin. destruct Hin as [n Hn].
  exists (0 + Z.of_nat n + 1). eapply nth_error_In.
  now apply with_rank_nth.
Qed.

(** X15. A valid result that has been recorded is on the leaderboard of
    its game type whenever the limit leaves room for all the results of
    that type: with the score, level and time sent, the time of the call,
    and as player the name of the registered user ("registered"), or of
    the guest session ("guest"), or "Anónimo" ("anonymous") when the
    caller's id resolves to no row. *)
Theorem recorded_result_is_listed
        (req : request) (s : store) (q : js string) (g : string) (sc l t i : Z) :
  gameType (req_body req) = just g -> g <> "" ->
  score (req_body req) = just sc -> 0 <= sc ->
  levelReached (req_body req) = just l -> 1 <= l ->
  timePlayed (req_body req) = just t -> 0 < t ->
  filing_id (req_user req) = just i ->
  Z.of_nat (List.length (of_game s g)) < limit q ->
  let who :=
    lookup_name (if is_guest (req_user req) then sesiones_invitados s else usuarios s)
                (Some i) in
  exists k,
    In (k, mkEntry (Some sc) (Some l) (Some t) (now req)
                   (match who with Some n => n | None => "Anónimo" end)
                   (match who with
                    | Some _ => if is_guest (req_user req) then "guest" else "registered"
                    | None => "anonymous"
                    end))
       (board (top g q (snd (record req s)))).
Proof.
  intros Hg Hne Hs Hsc Hl Hl1 Ht Ht0 Hi Hroom who.
  rewrite (record_valid_row req s g sc l t i Hg Hne Hs Hsc Hl Hl1 Ht Ht0 Hi).
  set (row := mkResultado _ _ _ _ _ _ _ _ _).
  set (s1 := with_resultados s _ _).
  rewrite (top_board g q s1) by lia. unfold board. simpl.
  apply In_with_rank.
  assert (Hof : of_game s1 g = (of_game s g ++ [row])%list).
  { unfold of_game, s1. simpl. rewrite filter_app. simpl.
    now rewrite String.eqb_refl. }
  rewrite firstn_all2.
  2:{ rewrite ranked_rows_length, Hof, length_app. simpl. lia. }
  assert (Hin : In row (Queries.ranked_rows s1 g)).
  { unfold Queries.ranked_rows. eapply Permutation_in; [apply sort_by_perm|].
    fold (of_game s1 g). rewrite Hof. apply in_or_app. right. now left. }
  apply in_map_iff. exists row. split; [|exact Hin].
  unfold entry_of, who, row, s1. simpl.
  destruct (is_guest (req_user req)); simpl.
  - destruct (option_map snd (find (fun r => fst r =? i) (sesiones_invitados s)));
      reflexivity.
  - destruct (option_map snd (find (fun r => fst r =? i) (usuarios s)));
      reflexivity.
Qed.

Lemma recorded_result_is_listed_witness :
  exists k,
    In (k, mkEntry (Some 12) (Some 3) (Some 45) 1000 "Bob" "guest")
       (board (top "quiz" (just "10")
                   (snd (record (game_request guest_bob (just 12) (just 3) (just 45))
                                three_results)))).
Proof.
  apply (recorded_result_is_listed
           (game_request guest_bob (just 12) (just 3) (just 45))
           three_results (just "10") "quiz" 12 3 45 3);
    try reflexivity; try lia; discriminate.
Defined.

End RecordedResults.

Section PersonalBest.
Import Auth GameRoutes GameSpec GameReads Samples MoreSamples.

Lemma col_ltb_irrefl (a : option Z) : col_ltb a a = false.
Proof. destruct a; simpl; [apply Z.ltb_irrefl | reflexivity]. Qed.

Lemma col_ltb_asym (a b : option Z) : col_ltb a b = true -> col_ltb b a = false.
Proof.
  destruct a, b; simpl; try discriminate; try reflexivity.
  rewrite Z.ltb_lt, Z.ltb_ge. lia.
Qed.

Lemma col_MAX_upper (l : list (option Z)) (x : option Z) :
  In x l -> col_ltb (col_MAX l) x = false.
Proof.
  induction l as [|a l IH]; simpl; [contradiction|].
  unfold col_max2. intros [Hx|Hx].
  - subst a. destruct (col_ltb x (col_MAX l)) eqn:E.
    + now apply col_ltb_asym.
    + apply col_ltb_irrefl.
  - specialize (IH Hx).
    destruct (col_ltb a (col_MAX l)) eqn:E; [exact IH|].
    destruct (col_ltb a x) eqn:E'; [|reflexivity].
    destruct (col_total (col_MAX l) x) as [H|[H|H]]; try congruence.
    rewrite (col_ltb_trans _ _ _ E' H) in E. discriminate.
Qed.

Lemma col_MAX_in (a : option Z) (l : list (option Z)) :
  In (col_MAX (a :: l)) (a :: l).
Proof.
  revert a. induction l as [|b l IH]; intros a; simpl.
  - unfold col_max2. destruct a; simpl; auto.
  - specialize (IH b). simpl in IH.
    set (M := col_max2 b (col_MAX l)) in *. unfold col_max2.
    destruct (col_ltb a M); [right; exact IH | now left].
Qed.

(** The maximum of a column is its one member that no member exceeds. *)
Lemma col_MAX_unique (l : list (option Z)) (m : option Z) :
  In m l -> (forall x, In x l -> col_ltb m x = false) -> col_MAX l = m.
Proof.
  intros Hin Hup. destruct l as [|a l]; [contradiction|].
  pose proof (col_MAX_in a l) as HM.
  pose proof (col_MAX_upper (a :: l) m Hin) as H1.
  pose proof (Hup _ HM) as H2.
  destruct (col_total (col_MAX (a :: l)) m) as [H|[H|H]]; congruence.
Qed.

Lemma col_max2_assoc (a b c : option Z) :
  col_max2 a (col_max2 b c) = col_max2 (col_max2 a b) c.
Proof.
  unfold col_max2.
  destruct a as [x|], b as [y|], c as [z|]; simpl; try reflexivity;
    repeat match goal with
           | |- context [?p <? ?q] => destruct (Z.ltb_spec p q); simpl
           end;
    try reflexivity; try lia.
Qed.

Lemma col_MAX_snoc (l : list (option Z)) (x : option Z) :
  col_MAX (l ++ [x]) = col_max2 (col_MAX l) x.
Proof.
  induction l as [|a l IH]; simpl.
  - unfold col_max2. destruct x; reflexivity.
  - rewrite IH. apply col_max2_assoc.
Qed.

Lemma first_of_ranking (rows : list resultado) :
  match hd_error (map best_of (firstn 1 (sort_by rank_leb rows))) with
  | None => rows = []
  | Some b =>
      bg_score b = col_MAX (map rj_puntuacion rows)
      /\ exists r,
          b = best_of r
          /\ In r rows
          /\ forall r', In r' rows -> rank_leb r r' = true
  end.
Proof.
  pose proof (sort_by_perm _ rank_leb rows) as Hperm.
  pose proof (sort_by_sorted _ rank_leb rank_leb_total rank_leb_trans rows)
    as Hsorted.
  destruct (sort_by rank_leb rows) as [|r rest]; simpl.
  - now apply Permutation_sym, Permutation_nil in Hperm.
  - inversion Hsorted as [|? ? _ Hfirst]; subst.
    assert (Hr : In r rows).
    { eapply Permutation_in; [apply Permutation_sym, Hperm | now left]. }
    assert (Hall : forall r', In r' rows -> rank_leb r r' = true).
    { intros r' Hr'. eapply Permutation_in in Hr'; [|exact Hperm].
      destruct Hr' as [<-|Hr'].
      - destruct (rank_leb_total r r); assumption.
      - rewrite Forall_forall in Hfirst. now apply Hfirst. }
    split; [|exists r; repeat split; assumption].
    symmetry. apply col_MAX_unique; [now apply in_map|].
    intros x Hx. apply in_map_iff in Hx. destruct Hx as (r' & <- & Hr').
    specialize (Hall r' Hr'). apply rank_leb_spec in Hall.
    destruct Hall as [H|[H _]].
    + now apply col_ltb_asym.
    + simpl. rewrite H. apply col_ltb_irrefl.
Qed.

(** X16. The personal best of a caller for a game: the call fails only
    when the caller has no id of its kind; otherwise [times_played] is
    the number of the caller's results for that game, and [bestGame] is
    null exactly when there is none, else it is one of those results, it
    ranks before all of them, and its score is [best_score]. *)
Theorem best_game_has_the_best_score (u : user) (g : string) (s : store) :
  match getPersonalBest u g s with
  | Throw => filing_id u = undefined
  | Ok p =>
      exists param,
        bind (filing_id u) = Ok param
        /\ p_gameType p = g
        /\ times_played (p_summary p)
           = List.length (own_results s (is_guest u) param g)
        /\ match p_bestGame p with
           | None => own_results s (is_guest u) param g = []
           | Some b =>
               bg_score b = best_score (p_summary p)
               /\ exists r,
                   b = best_of r
                   /\ In r (own_results s (is_guest u) param g)
                   /\ forall r', In r' (own_results s (is_guest u) param g) ->
                                 rank_leb r r' = true
           end
  end.
Proof.
  unfold getPersonalBest, filing_id.
  destruct (if is_guest u then guestId u else userId u) as [| |i]; simpl;
    [reflexivity | exists None | exists (Some i)];
    (split; [reflexivity|]); (split; [reflexivity|]); (split; [reflexivity|]);
    apply first_of_ranking.
Qed.

End PersonalBest.

Section PersonalBestAfterRecord.
Import Auth GameRoutes GameSpec GameReads Samples MoreSamples.

(** X17. After a valid result is recorded, the caller's personal best for
    that game counts one more play and its [best_score] is the larger of
    the old one and the score sent; the personal best of any other
    caller, and of the same caller for any other game, is what it was. *)
Theorem recorded_result_counts_for_its_owner
        (req : request) (s : store) (g : string) (sc l t i : Z) :
  gameType (req_body req) = just g -> g <> "" ->
  score (req_body req) = just sc -> 0 <= sc ->
  levelReached (req_body req) = just l -> 1 <= l ->
  timePlayed (req_body req) = just t -> 0 < t ->
  filing_id (req_user req) = just i ->
  (exists p p1,
      getPersonalBest (req_user req) g s = Ok p
      /\ getPersonalBest (req_user req) g (snd (record req s)) = Ok p1
      /\ times_played (p_summary p1) = S (times_played (p_summary p))
      /\ best_score (p_summary p1) = col_max2 (best_score (p_summary p)) (Some sc))
  /\ (forall v g',
         is_guest v <> is_guest (req_user req)
         \/ filing_id v <> just i
         \/ g' <> g ->
         getPersonalBest v g' (snd (record req s)) = getPersonalBest v g' s).
Proof.
  intros Hg Hne Hs Hsc Hl Hl1 Ht Ht0 Hi.
  rewrite (record_valid_row req s g sc l t i Hg Hne Hs Hsc Hl Hl1 Ht Ht0 Hi).
  set (row := mkResultado _ _ _ _ _ _ _ _ _).
  set (s1 := with_resultados s _ _).
  assert (Hown : forall guest param g',
             own_results s1 guest param g'
             = (own_results s guest param g'
                  ++ (if owned_by guest param row && (g =? g')%string
                      then [row] else []))%list).
  { intros guest param g'. unfold own_results, s1. simpl.
    rewrite filter_app. simpl.
    destruct (owned_by guest param row && (g =? g')%string); reflexivity. }
  split.
  - unfold getPersonalBest. unfold filing_id in Hi. rewrite Hi. simpl.
    do 2 eexists. split; [reflexivity|]. split; [reflexivity|]. simpl.
    assert (Hmine : owned_by (is_guest (req_user req)) (Some i) row
                    && (g =? g)%string = true).
    { rewrite String.eqb_refl, andb_true_r. unfold owned_by, row. simpl.
      destruct (is_guest (req_user req)); simpl; apply Z.eqb_refl. }
    rewrite Hown, Hmine. split.
    + rewrite length_app. simpl. lia.
    + rewrite map_app. simpl. apply col_MAX_snoc.
  - intros v g' Hother. unfold getPersonalBest.
    fold (filing_id v).
    destruct (filing_id v) as [| |j] eqn:Hj; simpl; [reflexivity| |].
    + rewrite Hown.
      assert (Hnot : owned_by (is_guest v) None row = false).
      { unfold owned_by. apply option_Z_eqb_null. }
      now rewrite Hnot, app_nil_r.
    + rewrite Hown.
      assert (Hnot : owned_by (is_guest v) (Some j) row && (g =? g')%string = false).
      { destruct (g =? g')%string eqn:Eg; [|apply andb_false_r].
        apply String.eqb_eq in Eg. rewrite andb_true_r.
        unfold owned_by, row. simpl.
        destruct (is_guest v) eqn:Ev, (is_guest (req_user req)) eqn:Eu; simpl;
          try reflexivity;
          destruct (i =? j) eqn:Eij; try reflexivity;
          apply Z.eqb_eq in Eij; subst;
          destruct Hother as [H|[H|H]]; congruence. }
      now rewrite Hnot, app_nil_r.
Qed.

Lemma recorded_result_counts_for_its_owner_witness :
  (exists p p1,
      getPersonalBest ada "quiz" three_results = Ok p
      /\ getPersonalBest ada "quiz"
           (snd (record (game_request ada (just 20) (just 1) (just 9)) three_results))
         = Ok p1
      /\ times_played (p_summary p1) = S (times_played (p_summary p))
      /\ best_score (p_summary p1) = col_max2 (best_score (p_summary p)) (Some 20))
  /\ (forall v g',
         is_guest v <> is_guest ada \/ filing_id v <> just 7 \/ g' <> "quiz" ->
         getPersonalBest v g'
           (snd (record (game_request ada (just 20) (just 1) (just 9)) three_results))
         = getPersonalBest v g' three_results).
Proof.
  apply (recorded_result_counts_for_its_owner
           (game_request ada (just 20) (just 1) (just 9)) three_results
           "quiz" 20 1 9 7);
    try reflexivity; try lia; discriminate.
Defined.

End PersonalBestAfterRecord.

(* ================================================================== *)
(** ** Guest sessions and accounts *)

Section GuestSessions.
Import Auth AuthRoutes AuthSamples.

Variable JWT_SECRET : js string.

Lemma no_session_under (id : Z) (rows : list sesion) (f : sesion -> bool) :
  Forall (fun r => id_sesion_invitado r < id) rows ->
  (forall r, (id_sesion_invitado r =? id) = false -> f r = false) ->
  filter f rows = [].
Proof.
  intros Hlt Hf. apply filter_none.
  eapply Forall_impl; [|exact Hlt]. intros r Hr. simpl in Hr.
  apply Hf. apply Z.eqb_neq. lia.
Qed.

(** X18. A guest session, from its creation to its end.  A username of at
    least 2 characters once trimmed gets a session under the next key,
    expiring one hour (3600000 ms) after its creation, and a token for
    the guest identity of that key.  With the keys of the table below
    the counter and the counter above 0, that identity is verified as valid at every time before
    the expiry and refused with 401 at the expiry and after it; and once
    it has logged out it is refused at every time. *)
Theorem guest_session_lifecycle
        (req : guest_request) (db : accounts) (name : string) :
  g_username req = just name ->
  2 <= Z.of_nat (String.length (trim name)) ->
  sessions_fresh db ->
  0 < next_id_sesion db ->
  let id := next_id_sesion db in
  let u := normalise (guest_claims id (g_uuid req) (trim name)) in
  let db1 := snd (createGuestSession JWT_SECRET req db) in
  fst (createGuestSession JWT_SECRET req db)
  = mkAuthRes 200
      (GuestCreated id (g_uuid req) (trim name) (g_now req + 3600000)
         (sign JWT_SECRET (guest_claims id (g_uuid req) (trim name)) 3600))
  /\ t_sesiones db1
     = (t_sesiones db
          ++ [mkSesion id (g_uuid req) (trim name) (g_now req)
                       (g_now req + 3600000) true])%list
  /\ (forall t, t < g_now req + 3600000 ->
                verify u t db1
                = mkAuthRes 200 (ValidGuest id (g_uuid req) (trim name)))
  /\ (forall t, g_now req + 3600000 <= t ->
                verify u t db1
                = mkAuthRes 401 (AError "Sesión de invitado expirada"))
  /\ (forall t, verify u t (snd (logout u db1))
                = mkAuthRes 401 (AError "Sesión de invitado expirada")).
Proof.
  intros Hname Hlen Hfresh Hpos id u db1.
  assert (Hnonempty : ((name =? "")%string = false)).
  { destruct name; [simpl in Hlen; lia | reflexivity]. }
  assert (Hcreate : createGuestSession JWT_SECRET req db
            = (mkAuthRes 200
                 (GuestCreated id (g_uuid req) (trim name) (g_now req + 3600000)
                    (sign JWT_SECRET (guest_claims id (g_uuid req) (trim name)) 3600)),
               mkAccounts (t_usuarios db) (next_id_usuario db)
                 (t_sesiones db
                    ++ [mkSesion id (g_uuid req) (trim name) (g_now req)
                                 (g_now req + 3600000) true])
                 (id + 1))).
  { unfold createGuestSession. rewrite Hname. simpl. rewrite Hnonempty. simpl.
    destruct (Z.of_nat (String.length (trim name)) <? 2) eqn:E;
      [apply Z.ltb_lt in E; lia | reflexivity]. }
  subst db1. rewrite Hcreate. simpl.
  split; [reflexivity|]. split; [reflexivity|].
  assert (Hold : forall f,
             (forall r, (id_sesion_invitado r =? id) = false -> f r = false) ->
             filter f (t_sesiones db) = []).
  { intros f Hf. now apply (no_session_under id). }
  split; [|split].
  - intros t Ht. unfold verify. simpl.
    rewrite filter_app, Hold by (intros r E; simpl; now rewrite E).
    simpl. rewrite Z.eqb_refl. simpl.
    destruct (t <? g_now req + 3600000) eqn:E;
      [reflexivity | apply Z.ltb_ge in E; lia].
  - intros t Ht. unfold verify. simpl.
    rewrite filter_app, Hold by (intros r E; simpl; now rewrite E).
    simpl. rewrite Z.eqb_refl. simpl.
    destruct (t <? g_now req + 3600000) eqn:E;
      [apply Z.ltb_lt in E; lia | reflexivity].
  - intros t. unfold verify, logout. simpl.
    assert (Hid : (id =? 0) = false) by (apply Z.eqb_neq; unfold id; lia).
    rewrite Hid. simpl.
    rewrite map_app, filter_app. simpl. rewrite Z.eqb_refl. simpl.
    rewrite Z.eqb_refl. simpl. rewrite app_nil_r.
    match goal with
    | |- context [filter ?F (map ?G (t_sesiones db))] =>
        assert (Hnone : filter F (map G (t_sesiones db)) = [])
    end.
    { apply filter_none. rewrite Forall_map.
      eapply Forall_impl; [|exact Hfresh]. intros r Hr. simpl in Hr.
      assert (E : (id_sesion_invitado r =? id) = false)
        by (apply Z.eqb_neq; unfold id; lia).
      rewrite E. simpl. now rewrite E. }
    now rewrite Hnone.
Qed.

End GuestSessions.

Section GuestSessionExamples.
Import Auth AuthRoutes AuthSamples.

Lemma guest_session_lifecycle_witness :
  let id := 2 in
  let u := normalise (guest_claims id "5f0c" "Bob") in
  let db1 := snd (createGuestSession undefined bob_asks bob_is_in) in
  fst (createGuestSession undefined bob_asks bob_is_in)
  = mkAuthRes 200
      (GuestCreated id "5f0c" "Bob" (1000 + 3600000)
         (sign undefined (guest_claims id "5f0c" "Bob") 3600))
  /\ t_sesiones db1
     = (t_sesiones bob_is_in
          ++ [mkSesion id "5f0c" "Bob" 1000 (1000 + 3600000) true])%list
  /\ (forall t, t < 1000 + 3600000 ->
                verify u t db1 = mkAuthRes 200 (ValidGuest id "5f0c" "Bob"))
  /\ (forall t, 1000 + 3600000 <= t ->
                verify u t db1
                = mkAuthRes 401 (AError "Sesión de invitado expirada"))
  /\ (forall t, verify u t (snd (logout u db1))
                = mkAuthRes 401 (AError "Sesión de invitado expirada")).
Proof.
  apply (guest_session_lifecycle undefined bob_asks bob_is_in " Bob ").
  - reflexivity.
  - vm_compute. discriminate.
  - repeat constructor.
  - reflexivity.
Defined.

End GuestSessionExamples.

Section GuestRefusals.
Import Auth AuthRoutes AuthSamples.

Variable JWT_SECRET : js string.

(** X19. A request for a guest session whose username is missing, null,
    or shorter than 2 characters once the white space around it is
    trimmed is answered 400, and no session is stored. *)
Theorem short_username_is_refused (req : guest_request) (db : accounts) :
  (forall name, g_username req = just name ->
                Z.of_nat (String.length (trim name)) < 2) ->
  createGuestSession JWT_SECRET req db
  = (mkAuthRes 400 (AError "Nombre de usuario requerido (mínimo 2 caracteres)"),
     db).
Proof.
  intros Hshort. unfold createGuestSession.
  destruct (g_username req) as [| |name]; try reflexivity.
  specialize (Hshort name eq_refl). apply Z.ltb_lt in Hshort.
  now rewrite Hshort, orb_true_r.
Qed.

(** X20. The profile of a guest does not look at the expiry: for a guest
    identity whose session is still marked active but whose sessions
    under that key have all expired, [verify] answers 401 while
    [profile] answers 200 with the session. *)
Theorem profile_ignores_the_expiry
        (u : user) (db : accounts) (id t : Z) (g : sesion) :
  is_guest u = true ->
  guestId u = just id ->
  In g (t_sesiones db) ->
  id_sesion_invitado g = id ->
  s_esta_activo g = true ->
  (forall r, In r (t_sesiones db) -> id_sesion_invitado r = id ->
             fecha_expiracion r <= t) ->
  verify u t db = mkAuthRes 401 (AError "Sesión de invitado expirada")
  /\ a_status (profile u db) = 200.
Proof.
  intros Hg Hid Hin Hkey Hact Hexp. unfold verify, profile.
  rewrite Hg, Hid. simpl. split.
  - rewrite filter_none; [reflexivity|].
    apply Forall_forall. intros r Hr.
    destruct (id_sesion_invitado r =? id) eqn:E; [|reflexivity].
    apply Z.eqb_eq in E. specialize (Hexp r Hr E).
    destruct (t <? fecha_expiracion r) eqn:E'; [apply Z.ltb_lt in E'; lia|].
    apply andb_false_r.
  - destruct (filter _ (t_sesiones db)) as [|g' l] eqn:Hf; [|reflexivity].
    exfalso.
    match type of Hf with
    | filter ?F _ = _ => assert (Hg' : In g (filter F (t_sesiones db)))
    end.
    { apply filter_In. split; [exact Hin|]. simpl.
      rewrite Hkey, Z.eqb_refl, Hact. reflexivity. }
    rewrite Hf in Hg'. contradiction.
Qed.

End GuestRefusals.

Section GuestRefusalExamples.
Import Auth AuthRoutes AuthSamples.

Lemma short_username_is_refused_witness :
  createGuestSession undefined (mkGuest (just "  a  ") "5f0c" 1000) bob_is_in
  = (mkAuthRes 400 (AError "Nombre de usuario requerido (mínimo 2 caracteres)"),
     bob_is_in).
Proof.
  apply short_username_is_refused.
  intros name H. inversion H. vm_compute. reflexivity.
Defined.

Lemma profile_ignores_the_expiry_witness :
  verify (normalise (guest_claims 1 "5f0c" "Bob")) 3601000 bob_is_in
  = mkAuthRes 401 (AError "Sesión de invitado expirada")
  /\ a_status (profile (normalise (guest_claims 1 "5f0c" "Bob")) bob_is_in) = 200.
Proof.
  apply (profile_ignores_the_expiry
           (normalise (guest_claims 1 "5f0c" "Bob")) bob_is_in 1 3601000
           (mkSesion 1 "5f0c" "Bob" 1000 3601000 true));
    try reflexivity.
  - now left.
  - intros r [<-|[]] _. simpl. lia.
Defined.

End GuestRefusalExamples.

Section Accounts.
Import Auth AuthRoutes AuthSamples.

Variable JWT_SECRET : js string.
Variable bcrypt_hash : string -> string -> string.
Variable bcrypt_compare : string -> string -> bool.

Lemma lower_char_twice (c : ascii) : lower_char (lower_char c) = lower_char c.
Proof. destruct c as [[] [] [] [] [] [] [] []]; vm_compute; reflexivity. Qed.

Lemma toLowerCase_twice (s : string) : toLowerCase (toLowerCase s) = toLowerCase s.
Proof.
  induction s as [|c s IH]; simpl; [reflexivity|].
  now rewrite lower_char_twice, IH.
Qed.

Lemma findByEmail_none (db : accounts) (e : string) :
  findByEmail db e = None -> ~ In e (map correo_electronico (t_usuarios db)).
Proof.
  unfold findByEmail. intros Hnone Hin.
  apply in_map_iff in Hin. destruct Hin as (u & Hu & Hin).
  apply (find_none _ _ Hnone) in Hin. simpl in Hin.
  subst e. now rewrite String.eqb_refl in Hin.
Qed.

Lemma map_correo_login (id now : Z) (rows : list usuario) :
  map correo_electronico
      (map (fun u => if u_id_usuario u =? id
                     then mkUsuario (u_id_usuario u) (nombre u)
                                    (correo_electronico u) (contrasena u)
                                    (tipo_usuario u) (u_fecha_creacion u)
                                    (u_esta_activo u) (Some now)
                     else u) rows)
  = map correo_electronico rows.
Proof.
  rewrite map_map. apply map_ext. intros u.
  now destruct (u_id_usuario u =? id).
Qed.

Lemma serve_account_order (c : account_call) (db : accounts) :
  emails_in_order db ->
  emails_in_order
    (snd (serve_account JWT_SECRET bcrypt_hash bcrypt_compare c db)).
Proof.
  intros [Hnd Hlow]. destruct c as [req|req]; simpl.
  - unfold register.
    destruct (negb (r_valid req)); simpl; [now split|].
    destruct (findByEmail db (toLowerCase (r_email req))) eqn:Hfind; simpl;
      [now split|].
    split; simpl.
    + rewrite map_app. simpl. apply NoDup_app; [exact Hnd | repeat constructor; auto|].
      intros e He [<-|[]]. now apply (findByEmail_none db _ Hfind).
    + apply Forall_app. split; [exact Hlow|].
      constructor; [apply toLowerCase_twice | constructor].
  - unfold login.
    destruct (negb (l_valid req)); simpl; [now split|].
    destruct (findByEmail db (toLowerCase (l_email req))) as [user|]; simpl;
      [|now split].
    destruct (negb (u_esta_activo user)); simpl; [now split|].
    destruct (negb (bcrypt_compare (l_password req) (contrasena user))); simpl;
      [now split|].
    split; simpl.
    + now rewrite map_correo_login.
    + rewrite Forall_map. eapply Forall_impl; [|exact Hlow].
      intros u Hu. now destruct (u_id_usuario u =? u_id_usuario user).
Qed.

(** X21. Registrations and logins served one after the other keep the
    e-mail addresses of the accounts pairwise distinct and in lower
    case. *)
Theorem emails_stay_distinct (calls : list account_call) (db : accounts) :
  emails_in_order db ->
  emails_in_order
    (serve_accounts JWT_SECRET bcrypt_hash bcrypt_compare calls db).
Proof.
  revert db. induction calls as [|c rest IH]; intros db Hdb; simpl;
    [exact Hdb|].
  apply IH. now apply serve_account_order.
Qed.

(** X22. A registration under an e-mail address that an account already
    holds, in whatever case it is written, is answered 409 and stores
    nothing; a registration that fails validation is answered 400 and
    stores nothing. *)
Theorem taken_email_is_refused
        (req : register_request) (db : accounts) (user : usuario) :
  In user (t_usuarios db) ->
  correo_electronico user = toLowerCase (r_email req) ->
  a_status (fst (register JWT_SECRET bcrypt_hash req db))
  = (if r_valid req then 409 else 400)
  /\ snd (register JWT_SECRET bcrypt_hash req db) = db.
Proof.
  intros Hin Hmail. unfold register.
  destruct (r_valid req); simpl; [|now split].
  destruct (findByEmail db (toLowerCase (r_email req))) eqn:Hfind; simpl;
    [now split|].
  exfalso. apply (findByEmail_none db _ Hfind).
  rewrite <- Hmail. now apply in_map.
Qed.

End Accounts.

Section AccountExamples.
Import Auth AuthRoutes AuthSamples.

Lemma emails_stay_distinct_witness :
  emails_in_order
    (serve_accounts undefined toy_hash toy_compare
       [Register ada_registers; Login ada_logs_in; Register ada_registers]
       no_accounts).
Proof.
  apply emails_stay_distinct. split; constructor.
Defined.

Lemma taken_email_is_refused_witness :
  let db := snd (register undefined toy_hash ada_registers no_accounts) in
  a_status (fst (register undefined toy_hash
                          (mkRegister true "Ada L." "a@x.COM" "other-pw" "pepper" 300)
                          db))
  = 409
  /\ snd (register undefined toy_hash
                  (mkRegister true "Ada L." "a@x.COM" "other-pw" "pepper" 300) db)
     = db.
Proof.
  apply (taken_email_is_refused undefined toy_hash
           (mkRegister true "Ada L." "a@x.COM" "other-pw" "pepper" 300)
           (snd (register undefined toy_hash ada_registers no_accounts))
           (mkUsuario 1 "Ada" "a@x.com" "s4ltsecret1" "estudiante" 100 true None)).
  - now left.
  - reflexivity.
Defined.

End AccountExamples.

Section RegisterAndLogin.
Import Auth AuthRoutes AuthSamples.

Variable JWT_SECRET : js string.
Variable bcrypt_hash : string -> string -> string.
Variable bcrypt_compare : string -> string -> bool.

Lemma findByEmail_last (db : accounts) (u : usuario) (next : Z) :
  findByEmail db (correo_electronico u) = None ->
  findByEmail (mkAccounts (t_usuarios db ++ [u]) next
                          (t_sesiones db) (next_id_sesion db))
              (correo_electronico u)
  = Some u.
Proof.
  unfold findByEmail. simpl. intros Hnone.
  induction (t_usuarios db) as [|x l IH]; simpl in *.
  - now rewrite String.eqb_refl.
  - destruct (correo_electronico x =? correo_electronico u)%string;
      [discriminate | now apply IH].
Qed.

(** X23. Registering and then logging in.  With a password that the hash
    library accepts against its own hash, a valid registration under an
    e-mail address that no account holds, with the counter above 0, is
    answered 201 with the new key, the trimmed name and the address in
    lower case; a valid login with the same password and the same
    address, in whatever case, is then answered 200 with the same key.
    Both tokens give a registered identity with that key as user id; the
    user type is "student" in the first and "estudiante" in the
    second. *)
Theorem register_then_login
        (reg : register_request) (log : login_request) (db : accounts) :
  (forall p salt, bcrypt_compare p (bcrypt_hash p salt) = true) ->
  r_valid reg = true ->
  l_valid log = true ->
  findByEmail db (toLowerCase (r_email reg)) = None ->
  toLowerCase (l_email log) = toLowerCase (r_email reg) ->
  l_password log = r_password reg ->
  0 < next_id_usuario db ->
  let id := next_id_usuario db in
  let db1 := snd (register JWT_SECRET bcrypt_hash reg db) in
  exists token1 token2,
    fst (register JWT_SECRET bcrypt_hash reg db)
    = mkAuthRes 201
        (Account "Usuario registrado exitosamente" id (trim (r_name reg))
                 (toLowerCase (r_email reg)) "student" token1)
    /\ fst (login JWT_SECRET bcrypt_compare log db1)
       = mkAuthRes 200
           (Account "Login exitoso" id (trim (r_name reg))
                    (toLowerCase (r_email reg)) "estudiante" token2)
    /\ userId (identity_of token1) = just id
    /\ userId (identity_of token2) = just id
    /\ is_guest (identity_of token1) = false
    /\ is_guest (identity_of token2) = false
    /\ userType (identity_of token1) = "student"
    /\ userType (identity_of token2) = "estudiante"
    /\ expiresIn token1 = 86400
    /\ expiresIn token2 = 86400.
Proof.
  intros Hbcrypt Hrv Hlv Hnone Hmail Hpw Hpos id db1.
  assert (Hreg : register JWT_SECRET bcrypt_hash reg db
            = (mkAuthRes 201
                 (Account "Usuario registrado exitosamente" id (trim (r_name reg))
                    (toLowerCase (r_email reg)) "student"
                    (sign JWT_SECRET
                       (mkClaims (just id) undefined undefined
                                 (just (toLowerCase (r_email reg))) undefined
                                 (just "student")) 86400)),
               mkAccounts
                 (t_usuarios db
                    ++ [mkUsuario id (trim (r_name reg)) (toLowerCase (r_email reg))
                                  (bcrypt_hash (r_password reg) (r_salt reg))
                                  "estudiante" (r_now reg) true None])
                 (id + 1) (t_sesiones db) (next_id_sesion db))).
  { unfold register. rewrite Hrv. simpl. now rewrite Hnone. }
  subst db1. rewrite Hreg. simpl.
  set (row := mkUsuario id _ _ _ _ _ _ _).
  assert (Hfind : findByEmail
                    (mkAccounts (t_usuarios db ++ [row]) (id + 1)
                                (t_sesiones db) (next_id_sesion db))
                    (toLowerCase (l_email log)) = Some row).
  { rewrite Hmail. apply (findByEmail_last db row (id + 1)). exact Hnone. }
  do 2 eexists. split; [reflexivity|].
  unfold login. rewrite Hlv. simpl. rewrite Hfind. simpl.
  rewrite Hpw, Hbcrypt. simpl.
  split; [reflexivity|].
  unfold identity_of, is_guest; simpl. unfold or_else; simpl.
  assert (Hid : (id =? 0) = false) by (apply Z.eqb_neq; unfold id; lia).
  rewrite Hid. simpl. repeat split; reflexivity.
Qed.

(** X24. A login is answered 200 exactly when the request passes
    validation and the account found under the address in lower case is
    active and its hash accepts the password; in every other case it is
    answered 400 or 401 and the store is left as it was. *)
Theorem login_succeeds_only_with_the_password
        (req : login_request) (db : accounts) :
  (a_status (fst (login JWT_SECRET bcrypt_compare req db)) = 200 <->
   l_valid req = true
   /\ exists user,
       findByEmail db (toLowerCase (l_email req)) = Some user
       /\ u_esta_activo user = true
       /\ bcrypt_compare (l_password req) (contrasena user) = true)
  /\ (a_status (fst (login JWT_SECRET bcrypt_compare req db)) <> 200 ->
      snd (login JWT_SECRET bcrypt_compare req db) = db
      /\ (a_status (fst (login JWT_SECRET bcrypt_compare req db)) = 400
          \/ a_status (fst (login JWT_SECRET bcrypt_compare req db)) = 401)).
Proof.
  unfold login.
  destruct (l_valid req); simpl.
  2:{ split; [split; [discriminate | intros [H _]; discriminate]|auto]. }
  destruct (findByEmail db (toLowerCase (l_email req))) as [user|]; simpl.
  2:{ split; [split; [discriminate | intros [_ (u & H & _)]; discriminate]|auto]. }
  destruct (u_esta_activo user) eqn:Ha; simpl.
  2:{ split; [split; [discriminate|]|auto].
      intros [_ (u & H & Hu & _)]. inversion H; subst. congruence. }
  destruct (bcrypt_compare (l_password req) (contrasena user)) eqn:Hc; simpl.
  - split; [split; [intros _; split; [reflexivity|eauto] | reflexivity]|].
    intros H. contradiction.
  - split; [split; [discriminate|]|auto].
    intros [_ (u & H & _ & Hu)]. inversion H; subst. congruence.
Qed.

End RegisterAndLogin.

Section RegisterAndLoginExamples.
Import Auth AuthRoutes AuthSamples.

Lemma toy_compare_accepts (p salt : string) : toy_compare p (toy_hash p salt) = true.
Proof.
  unfold toy_compare, toy_hash.
  induction salt as [|c salt IH]; simpl.
  - destruct p; simpl; [reflexivity|]. now rewrite Ascii.eqb_refl, String.eqb_refl.
  - rewrite IH. apply orb_true_r.
Qed.

Lemma register_then_login_witness :
  exists token1 token2,
    fst (register undefined toy_hash ada_registers no_accounts)
    = mkAuthRes 201
        (Account "Usuario registrado exitosamente" 1 "Ada" "a@x.com" "student"
                 token1)
    /\ fst (login undefined toy_compare ada_logs_in
                  (snd (register undefined toy_hash ada_registers no_accounts)))
       = mkAuthRes 200 (Account "Login exitoso" 1 "Ada" "a@x.com" "estudiante" token2)
    /\ userId (identity_of token1) = just 1
    /\ userId (identity_of token2) = just 1
    /\ is_guest (identity_of token1) = false
    /\ is_guest (identity_of token2) = false
    /\ userType (identity_of token1) = "student"
    /\ userType (identity_of token2) = "estudiante"
    /\ expiresIn token1 = 86400
    /\ expiresIn token2 = 86400.
Proof.
  apply (register_then_login undefined toy_hash toy_compare
           ada_registers ada_logs_in no_accounts);
    try reflexivity.
  apply toy_compare_accepts.
Defined.

End RegisterAndLoginExamples.

Section TokenOfHeader.
Import Auth TokenSpec Samples.

Lemma split_spaceless (t : string) : spaceless t = true -> split " "%char t = [t].
Proof.
  induction t as [|c t IH]; simpl; [reflexivity|].
  intros H. apply andb_prop in H. destruct H as [Hc Ht].
  apply negb_true_iff in Hc. rewrite Hc, (IH Ht). reflexivity.
Qed.

Lemma split_at_first_space (w rest : string) :
  spaceless w = true ->
  split " "%char (w ++ String " "%char rest) = w :: split " "%char rest.
Proof.
  induction w as [|c w IH]; simpl; [reflexivity|].
  intros H. apply andb_prop in H. destruct H as [Hc Hw].
  apply negb_true_iff in Hc. rewrite Hc, (IH Hw). reflexivity.
Qed.

(** X25. The word before the token is not looked at: for a header made of
    a word without a space, a space, and a non-empty token without a
    space, the middleware takes that token, whatever the word ("Bearer",
    "Basic", or nothing at all), and so answers two such headers with
    the same token in the same way. *)
Theorem scheme_is_not_checked
        (jwt_verify : string -> string -> verified) (JWT_SECRET : js string)
        (w w' t : string) :
  spaceless w = true -> spaceless w' = true -> spaceless t = true ->
  t <> "" ->
  token_of (just (w ++ " " ++ t)) = just t
  /\ authenticateToken jwt_verify JWT_SECRET (just (w ++ " " ++ t))
     = authenticateToken jwt_verify JWT_SECRET (just (w' ++ " " ++ t))
  /\ authenticateToken jwt_verify JWT_SECRET (just (w ++ " " ++ t))
     = match jwt_verify t (or_str JWT_SECRET "maxwavex_secret_key") with
       | Failed _ => Answered (mkRes 403 (Error "Token inválido"))
       | Decoded decoded => Next (normalise decoded)
       end.
Proof.
  intros Hw Hw' Ht Hne.
  assert (Htok : forall v, spaceless v = true ->
                           token_of (just (v ++ " " ++ t)) = just t).
  { intros v Hv. unfold token_of.
    assert (Hnonempty : truthy_str (just (v ++ " " ++ t)) = true).
    { simpl. destruct v; reflexivity. }
    rewrite Hnonempty.
    change (v ++ " " ++ t)%string with (v ++ String " "%char t)%string.
    rewrite (split_at_first_space v t Hv), (split_spaceless t Ht). reflexivity. }
  split; [now apply Htok|].
  unfold authenticateToken. rewrite !Htok by assumption.
  apply String.eqb_neq in Hne. simpl. rewrite Hne. simpl.
  split; reflexivity.
Qed.

Lemma scheme_is_not_checked_witness :
  token_of (just ("Basic" ++ " " ++ "ada")) = just "ada"
  /\ authenticateToken sample_verify undefined (just ("Basic" ++ " " ++ "ada"))
     = authenticateToken sample_verify undefined (just ("Bearer" ++ " " ++ "ada"))
  /\ authenticateToken sample_verify undefined (just ("Basic" ++ " " ++ "ada"))
     = match sample_verify "ada" (or_str undefined "maxwavex_secret_key") with
       | Failed _ => Answered (mkRes 403 (Error "Token inválido"))
       | Decoded decoded => Next (normalise decoded)
       end.
Proof.
  apply (scheme_is_not_checked sample_verify undefined "Basic" "Bearer" "ada");
    try reflexivity.
  discriminate.
Defined.

End TokenOfHeader.

(* ================================================================== *)
(** ** The store helpers *)

Section Transactions.
Import Database.

(** X26. A transaction releases its connection on every path.  If no
    connection is obtained nothing else is asked of the driver.  If one
    is, the last thing asked is its release, and it is asked once; the
    result of the callback is returned exactly when the transaction
    begins, the callback returns and the commit succeeds, and then no
    rollback is asked; in every other case the transaction throws after
    asking for a rollback. *)
Theorem transaction_releases_the_connection
        {R} (d : driver) (callback : outcome R) :
  let result := fst (transaction d callback) in
  let trace := snd (transaction d callback) in
  (connects d = false -> result = Throw /\ trace = [GetConnection])
  /\ (connects d = true ->
      List.last trace GetConnection = Release
      /\ List.length (filter (event_eqb Release) trace) = 1%nat
      /\ ((exists r, result = Ok r) <->
          begins d = true /\ (exists r, callback = Ok r) /\ commits d = true)
      /\ (forall r, result = Ok r -> callback = Ok r /\ ~ In Rollback trace)
      /\ (result = Throw -> In Rollback trace)
      /\ (In Callback trace <-> begins d = true)
      /\ (In Commit trace <-> begins d = true /\ exists r, callback = Ok r)).
Proof.
  unfold transaction, abandon.
  destruct d as [[] [] [] rb], callback as [r|]; simpl;
    repeat match goal with
           | |- _ /\ _ => split
           | |- _ <-> _ => split
           | |- forall _, _ => intro
           | |- ~ _ => intro
           | H : exists _, _ |- _ => destruct H
           | H : _ /\ _ |- _ => destruct H
           | H : _ \/ _ |- _ => destruct H
           | H : False |- _ => contradiction
           | H : _ = _ |- _ => discriminate H
           | H : Ok _ = Ok _ |- _ => inversion H; clear H; subst
           end;
    try reflexivity; simpl; eauto 10.
Qed.

End Transactions.

Section StatementTexts.
Import Database.

Variable value : Type.

Lemma placeholders_app (a b : string) :
  placeholders (a ++ b) = (placeholders a + placeholders b)%nat.
Proof.
  induction a as [|c a IH]; simpl; [reflexivity|]. rewrite IH. lia.
Qed.

Lemma placeholders_join_plain (l : list string) :
  Forall plain l -> placeholders (join ", " l) = O.
Proof.
  induction 1 as [|x l Hx Hl IH]; [reflexivity|].
  destruct l as [|y l]; [exact Hx|].
  change (join ", " (x :: y :: l)) with (x ++ ", " ++ join ", " (y :: l))%string.
  rewrite !placeholders_app, IH, Hx. reflexivity.
Qed.

Lemma placeholders_join_marks {A} (l : list A) :
  placeholders (join ", " (map (fun _ => "?") l)) = List.length l.
Proof.
  induction l as [|x l IH]; [reflexivity|].
  destruct l as [|y l]; [reflexivity|].
  change (join ", " (map (fun _ => "?") (x :: y :: l)))
    with ("?" ++ ", " ++ join ", " (map (fun _ : A => "?") (y :: l)))%string.
  rewrite !placeholders_app, IH. reflexivity.
Qed.

Lemma placeholders_join_assignments (l : list string) :
  Forall plain l ->
  placeholders (join ", " (map (fun field => field ++ " = ?") l)) = List.length l.
Proof.
  induction 1 as [|x l Hx Hl IH]; [reflexivity|].
  destruct l as [|y l].
  - simpl. rewrite placeholders_app, Hx. reflexivity.
  - change (join ", " (map (fun field => field ++ " = ?") (x :: y :: l)))
      with ((x ++ " = ?") ++ ", "
            ++ join ", " (map (fun field => field ++ " = ?") (y :: l)))%string.
    rewrite !placeholders_app, IH, Hx. reflexivity.
Qed.

Lemma inferred_idField_plain (table : string) : plain (inferred_idField table).
Proof.
  unfold inferred_idField, plain.
  repeat match goal with
         | |- context [if ?b then _ else _] => destruct b
         end; reflexivity.
Qed.

(** X27. The statements that the helpers build carry as many
    placeholders as parameters, when the table and column names hold no
    question mark: one per property for an insert, one per property and
    one for the key for an update (so a single one for an update of no
    property), and one for a lookup or a deletion by id. *)
Theorem placeholders_match_parameters
        (table : string) (id : value) (data : list (string * value))
        (idField : js string) :
  plain table ->
  Forall plain (keys value data) ->
  (forall f, idField = just f -> plain f) ->
  placeholders (fst (insert_statement value table data))
  = List.length (snd (insert_statement value table data))
  /\ List.length (snd (insert_statement value table data)) = List.length data
  /\ placeholders (fst (update_statement value table id data idField))
     = List.length (snd (update_statement value table id data idField))
  /\ List.length (snd (update_statement value table id data idField))
     = S (List.length data)
  /\ placeholders (fst (findById_statement value table id)) = 1%nat
  /\ placeholders (fst (deleteById_statement value table id)) = 1%nat.
Proof.
  intros Ht Hk Hf. unfold plain in Ht.
  unfold insert_statement, update_statement, findById_statement,
    deleteById_statement, values. cbn [fst snd].
  rewrite !length_app, !length_map.
  repeat split.
  - rewrite !placeholders_app, Ht, (placeholders_join_plain _ Hk),
      placeholders_join_marks. unfold keys. rewrite length_map. simpl. lia.
  - assert (Hid : plain (if negb (truthy_str idField) then inferred_idField table
                         else match idField with
                              | just f => f
                              | _ => inferred_idField table
                              end)).
    { destruct (negb (truthy_str idField)); [apply inferred_idField_plain|].
      destruct idField as [| |f]; try apply inferred_idField_plain.
      now apply Hf. }
    unfold plain in Hid.
    rewrite !placeholders_app, Ht, Hid, (placeholders_join_assignments _ Hk).
    unfold keys. rewrite length_map. simpl. lia.
  - simpl. lia.
  - rewrite !placeholders_app, Ht. simpl. lia.
  - rewrite !placeholders_app, Ht. simpl. lia.
Qed.

End StatementTexts.

Section StatementExamples.
Import Database.

Lemma placeholders_match_parameters_witness :
  let data := [("porcentaje_completado", 100); ("esta_completado", 1);
               ("ultimo_acceso", 1000)] in
  placeholders (fst (insert_statement Z "progreso_usuarios" data))
  = List.length (snd (insert_statement Z "progreso_usuarios" data))
  /\ List.length (snd (insert_statement Z "progreso_usuarios" data))
     = List.length data
  /\ placeholders (fst (update_statement Z "progreso_usuarios" 7 data null))
     = List.length (snd (update_statement Z "progreso_usuarios" 7 data null))
  /\ List.length (snd (update_statement Z "progreso_usuarios" 7 data null))
     = S (List.length data)
  /\ placeholders (fst (findById_statement Z "progreso_usuarios" 7)) = 1%nat
  /\ placeholders (fst (deleteById_statement Z "progreso_usuarios" 7)) = 1%nat.
Proof.
  apply (placeholders_match_parameters Z "progreso_usuarios" 7
           [("porcentaje_completado", 100); ("esta_completado", 1);
            ("ultimo_acceso", 1000)] null).
  - reflexivity.
  - repeat constructor.
  - discriminate.
Defined.

End StatementExamples.

(* ================================================================== *)
(** ** Modules *)

Section Modules.
Import ModuleRoutes.

Lemma by_order_total (a b : modulo_row) :
  by_order a b = true \/ by_order b a = true.
Proof.
  unfold by_order.
  destruct (Z.le_gt_cases (r_indice_orden a) (r_indice_orden b));
    [left | right]; apply Z.leb_le; lia.
Qed.

Lemma by_order_trans (a b c : modulo_row) :
  by_order a b = true -> by_order b c = true -> by_order a c = true.
Proof. unfold by_order. rewrite !Z.leb_le. lia. Qed.

Lemma tipoContenido_valid (contentType : string) :
  includes validTypes (tipoContenido contentType) = true <->
  In contentType accepted_names.
Proof.
  unfold tipoContenido, typeMap, includes, validTypes, accepted_names.
  split.
  - repeat match goal with
           | |- context [(contentType =? ?k)%string] =>
               destruct (String.eqb_spec contentType k);
               [subst; simpl; intros _; tauto|]
           end.
    simpl. rewrite !orb_false_r.
    repeat match goal with
           | |- context [(contentType =? ?k)%string] =>
               destruct (String.eqb_spec contentType k);
               [subst; simpl; intros _; tauto|]
           end.
    discriminate.
  - simpl. intros H.
    repeat (destruct H as [<-|H]; [reflexivity|]). contradiction.
Qed.

(** X28. The content type of the modules-by-type route: the request is
    refused with 400 exactly when the name is none of the five English
    and five Spanish names; otherwise it lists, in the order of
    [indice_orden], exactly the active modules of the type, and the
    English name and its Spanish one are answered alike. *)
Theorem content_type_names (contentType : string) (table : list modulo_row) :
  (modulesByType contentType table = Refused 400 "Tipo de contenido inválido" <->
   ~ In contentType accepted_names)
  /\ (In contentType accepted_names ->
      modulesByType contentType table
      = modulesByType (tipoContenido contentType) table
      /\ exists rows,
          modulesByType contentType table = Listed (map (line_of false) rows)
          /\ (forall m, In m rows <->
                        In m table /\ r_esta_activo m = true
                        /\ tipo_contenido m = tipoContenido contentType)
          /\ StronglySorted
               (fun a b => r_indice_orden a <= r_indice_orden b) rows).
Proof.
  pose proof (tipoContenido_valid contentType) as Hv.
  split.
  - unfold modulesByType.
    destruct (includes validTypes (tipoContenido contentType)) eqn:E; simpl.
    + split; [discriminate|]. intros Hn. exfalso. apply Hn. now apply Hv.
    + split; [|reflexivity]. intros _ Hin. apply Hv in Hin. discriminate.
  - intros Hin.
    assert (Hidem : tipoContenido (tipoContenido contentType)
                    = tipoContenido contentType).
    { unfold accepted_names in Hin. simpl in Hin.
      repeat (destruct Hin as [<-|Hin]; [reflexivity|]). contradiction. }
    split.
    + unfold modulesByType. now rewrite Hidem.
    + apply Hv in Hin. unfold modulesByType. rewrite Hin. simpl.
      eexists. split; [reflexivity|]. split.
      * intros m. split.
        -- intros Hm.
           eapply Permutation_in in Hm; [|apply Permutation_sym, sort_by_perm].
           apply filter_In in Hm. destruct Hm as [Hm Hc].
           apply andb_prop in Hc. destruct Hc as [Hc Ha].
           apply String.eqb_eq in Hc. auto.
        -- intros (Hm & Ha & Hc).
           eapply Permutation_in; [apply sort_by_perm|].
           apply filter_In. split; [exact Hm|].
           rewrite Ha, andb_true_r. now apply String.eqb_eq.
      * rewrite <- (map_id (sort_by by_order _)).
        eapply StronglySorted_map;
          [|apply sort_by_sorted; [apply by_order_total | apply by_order_trans]].
        intros a b H. apply Z.leb_le. exact H.
Qed.

(** X29. What the list of modules shows can be fetched: with distinct
    module keys, every line of the list is the line of an active module,
    and the module of that key is answered by the detail route with the
    same title, type and order; a key that no module has, or that an
    inactive module has, is answered 404. *)
Theorem listed_modules_can_be_fetched (table : list modulo_row) :
  NoDup (map r_id_modulo table) ->
  (forall line,
      (exists lines, listModules table = Listed lines /\ In line lines) ->
      exists d,
        getModule (l_id line) table = Detail d
        /\ d_id d = l_id line
        /\ d_title d = l_title line
        /\ d_content_type d = l_content_type line
        /\ d_order_index d = l_order_index line
        /\ d_is_active d = true)
  /\ (forall id, ~ In id (map r_id_modulo table) ->
                 getModule id table = Refused 404 "Módulo no encontrado")
  /\ (forall m, In m table -> r_esta_activo m = false ->
                getModule (r_id_modulo m) table
                = Refused 404 "Módulo no disponible").
Proof.
  intros Hnd.
  assert (Hfirst : forall m, In m table ->
             filter (fun x => r_id_modulo x =? r_id_modulo m) table = [m]).
  { clear - Hnd. induction table as [|x l IH]; intros m Hm; [contradiction|].
    simpl in Hnd. inversion Hnd as [|k ks Hnot Hnd']; subst.
    simpl. destruct Hm as [->|Hm].
    - rewrite Z.eqb_refl. f_equal.
      apply filter_none. apply Forall_forall. intros y Hy.
      apply Z.eqb_neq. intros E. apply Hnot. rewrite <- E. now apply in_map.
    - destruct (r_id_modulo x =? r_id_modulo m) eqn:E; [|now apply IH].
      apply Z.eqb_eq in E. exfalso. apply Hnot. rewrite E. now apply in_map. }
  split; [|split].
  - intros line (lines & Hl & Hin). unfold listModules in Hl.
    inversion Hl; subst lines. apply in_map_iff in Hin.
    destruct Hin as (m & <- & Hm).
    eapply Permutation_in in Hm; [|apply Permutation_sym, sort_by_perm].
    apply filter_In in Hm. destruct Hm as [Hm Ha].
    unfold getModule. simpl. rewrite (Hfirst m Hm), Ha. simpl.
    eexists. split; [reflexivity|]. simpl. repeat split; assumption.
  - intros id Hid. unfold getModule.
    rewrite filter_none; [reflexivity|].
    apply Forall_forall. intros m Hm. apply Z.eqb_neq. intros E.
    apply Hid. rewrite <- E. now apply in_map.
  - intros m Hm Ha. unfold getModule. now rewrite (Hfirst m Hm), Ha.
Qed.

Lemma listed_modules_can_be_fetched_witness :
  (forall line,
      (exists lines, listModules sample_modules = Listed lines /\ In line lines) ->
      exists d,
        getModule (l_id line) sample_modules = Detail d
        /\ d_id d = l_id line
        /\ d_title d = l_title line
        /\ d_content_type d = l_content_type line
        /\ d_order_index d = l_order_index line
        /\ d_is_active d = true)
  /\ (forall id, ~ In id (map r_id_modulo sample_modules) ->
                 getModule id sample_modules = Refused 404 "Módulo no encontrado")
  /\ (forall m, In m sample_modules -> r_esta_activo m = false ->
                getModule (r_id_modulo m) sample_modules
                = Refused 404 "Módulo no disponible").
Proof.
  apply listed_modules_can_be_fetched.
  repeat constructor; simpl; intuition discriminate.
Defined.

End Modules.
